(** * claude_ssh_mcp: locating, provisioning and launching the Node.js runtime

    A shallow embedding of [python-package/claude_ssh_mcp/__init__.py].

    - Strings are [string]; [str.lower], [str.startswith] and [str.endswith]
      are written out on them (platform names are ASCII).
    - A [pathlib.Path] is a list of components, absolute or relative to the
      working directory; [str(p)] and [Path(s)] are therefore the identity.
    - The file system is a tree whose directories are finite maps from names
      to nodes, a regular file or a directory each: the tree holds what
      every path resolves to.  Which paths are symbolic links is not part of
      the tree: it is a parameter of the host, and it is [shutil.rmtree]
      that asks, because it refuses a link.  Links that lead nowhere and
      writes through links are outside the model, and what is proved about
      the install directory is proved for entries that are no links.  The
      order in which the operating system lists a directory is not fixed by
      Python, so it is a parameter of the host.
    - [zipfile] keeps every member of an archive inside the directory it is
      extracted to.  [tarfile], called without a filter as the source calls
      it, does not: a tar archive carries the members whose names lead out
      of that directory, and they are written where their names lead.
    - Library calls whose result is decided outside the program
      ([shutil.which], the HTTP download, the archive decoders, the child
      process) are parameters of the host as well.
    - Effects are threaded through a state-and-exception monad over a
      [world]: the file system, the text printed, and the log of network
      requests and spawned processes. *)

From stdpp Require Import base option list gmap strings.
From Stdlib Require Import ZArith.

Local Open Scope string_scope.
Local Open Scope list_scope.

(** ** Strings *)

Module Str.

(** [str.lower] on ASCII letters; other characters are left alone. *)
Definition lower_char (c : Ascii.ascii) : Ascii.ascii :=
  let n := Ascii.N_of_ascii c in
  if ((65 <=? n) && (n <=? 90))%N then Ascii.ascii_of_N (n + 32) else c.

Fixpoint lower (s : string) : string :=
  match s with
  | EmptyString => EmptyString
  | String c s' => String (lower_char c) (lower s')
  end.

(** [s.startswith(pre)] *)
Definition startswith (s pre : string) : bool := String.prefix pre s.

(** [s.endswith(suf)] *)
Definition endswith (s suf : string) : bool :=
  String.prefix (String.rev suf) (String.rev s).

(** [s in (a, b, ...)] for a tuple of strings. *)
Definition in_tuple (s : string) (t : list string) : bool :=
  existsb (String.eqb s) t.

End Str.

(** ** Paths *)

Inductive path :=
  | Abs (parts : list string)
  | Rel (parts : list string).

Definition parts_of (p : path) : list string :=
  match p with Abs l | Rel l => l end.

(** [p / c] *)
Definition join (p : path) (c : string) : path :=
  match p with
  | Abs l => Abs (l ++ [c])
  | Rel l => Rel (l ++ [c])
  end.

Infix "//" := join (at level 40, left associativity).

(** [p.parent]; the anchor and [Path(".")] are their own parents. *)
Definition parent (p : path) : path :=
  match p with
  | Abs l => Abs (removelast l)
  | Rel l => Rel (removelast l)
  end.

(** [p.name] *)
Definition name (p : path) : string := List.last (parts_of p) "".

(** ** File-system trees *)

#[local] Set Warnings "-register-all".

Inductive node :=
  | File (data : string)
  | Dir (entries : gmap string node).

Definition is_dir_node (n : node) : bool :=
  match n with Dir _ => true | File _ => false end.

Definition on_entries (f : gmap string node → gmap string node) (n : node) : node :=
  match n with
  | Dir es => Dir (f es)
  | File _ => n
  end.

Fixpoint lookup_path (p : list string) (n : node) : option node :=
  match p with
  | [] => Some n
  | c :: p' =>
      match n with
      | Dir es => es !! c ≫= lookup_path p'
      | File _ => None
      end
  end.

(** Sets the entry at [p] to [o]: written or replaced for [Some], removed
    with everything below it for [None].  Nothing changes when the parent of
    [p] is not a directory; the root itself is never replaced. *)
Fixpoint set_at (p : list string) (o : option node) : node → node :=
  match p with
  | [] => fun n => n
  | [c] => on_entries (partial_alter (fun _ => o) c)
  | c :: p' => on_entries (alter (set_at p' o) c)
  end.

Definition put_node (p : list string) (n : node) : node → node := set_at p (Some n).

Definition remove_node (p : list string) : node → node := set_at p None.

(** [os.makedirs(p, exist_ok=True)] from the directory [n] downwards; [None]
    when a component exists and is not a directory. *)
Fixpoint makedirs (p : list string) (n : node) : option node :=
  match n with
  | File _ => None
  | Dir es =>
      match p with
      | [] => Some n
      | c :: p' =>
          sub ← makedirs p' (default (Dir ∅) (es !! c));
          Some (Dir (<[c := sub]> es))
      end
  end.

(** ** Exceptions, events and the world *)

Inductive exn :=
  | OSError (what : string)
  | URLError (url : string)
  | ArchiveError (what : string)
  | RuntimeError (msg : string)
  | SystemExit (code : Z).

Inductive result (A : Type) :=
  | Ok (a : A)
  | Raised (e : exn).
Arguments Ok {A} a.
Arguments Raised {A} e.

(** An element of an argument vector: a path turned into text by [str], or
    a string literal. *)
Inductive arg :=
  | ArgPath (p : path)
  | ArgStr (s : string).

Inductive event :=
  | Download (url : string)
  | Spawn (cmd : list arg).

Record world := World {
  fs : node;
  stdout : list string;
  events : list event
}.

Definition with_fs (f : node) (w : world) : world :=
  World f (stdout w) (events w).

(** The name of an archive member that leads out of the directory the
    archive is extracted to: [n] levels up and then down, or from the root. *)
Inductive stray_name :=
  | Up (n : nat) (parts : list string)
  | FromRoot (parts : list string).

(** What a tar archive holds: the entries its members make inside the
    directory it is extracted to, by name, and the regular files whose
    member names lead out of that directory, in the order of the archive.
    The members that lead out are taken to follow the others. *)
Record tarball := Tarball {
  members : gmap string node;
  strays : list (stray_name * string)
}.

(** What the program takes from its surroundings. *)
Record host := Host {
  system : string;                           (* platform.system() *)
  machine : string;                          (* platform.machine() *)
  home : list string;                        (* Path.home() *)
  cwd : list string;                         (* working directory *)
  environ : string → option path;            (* os.environ *)
  which : string → node → option path;       (* shutil.which *)
  listdir : gmap string node → list string;  (* order of os.listdir *)
  islink : list string → node → bool;        (* os.path.islink *)
  urlopen : string → option string;          (* body served for a URL *)
  unzip : string → option (gmap string node);     (* zipfile *)
  untar_xz : string → option tarball;        (* lzma + tarfile *)
  untar_gz : string → option tarball;        (* tarfile, r:gz *)
  tempdir : list string;                     (* tempfile.gettempdir() *)
  tempnames : list string;                   (* names drawn by mkdtemp *)
  child : list arg → node → option (Z * node)  (* what a spawned child does *)
}.

(** ** The monad *)

Definition M (A : Type) : Type := world → result A * world.

Definition ret {A} (a : A) : M A := fun w => (Ok a, w).

Definition bind {A B} (m : M A) (k : A → M B) : M B :=
  fun w =>
    match m w with
    | (Ok a, w') => k a w'
    | (Raised e, w') => (Raised e, w')
    end.

Definition raise {A} (e : exn) : M A := fun w => (Raised e, w).

Definition gets {A} (f : node → A) : M A := fun w => (Ok (f (fs w)), w).

(** [try: body finally: cleanup] where the cleanup cannot fail. *)
Definition finally {A} (body : M A) (cleanup : world → world) : M A :=
  fun w => let '(r, w') := body w in (r, cleanup w').

#[export] Instance M_ret : MRet M := @ret.
#[export] Instance M_bind : MBind M := fun A B k m => bind m k.

(** [for item in items: body(item)] *)
Fixpoint for_each {A} (items : list A) (body : A → M unit) : M unit :=
  match items with
  | [] => ret tt
  | item :: rest => body item;; for_each rest body
  end.

(** ** Library calls on the world of one host *)

Section Program.

Variable H : host.

Definition on_windows : bool := system H =? "Windows".

Definition resolve (p : path) : list string :=
  match p with
  | Abs l => l
  | Rel l => cwd H ++ l
  end.

(** [str(p)], used in messages only. *)
Definition str (p : path) : string :=
  let sep := if on_windows then "\" else "/" in
  match p with
  | Abs l => (if on_windows then "" else "/") +:+ String.concat sep l
  | Rel [] => "."
  | Rel l => String.concat sep l
  end.

(** [p.exists()] *)
Definition path_exists (f : node) (p : path) : bool :=
  match lookup_path (resolve p) f with
  | Some _ => true
  | None => false
  end.

(** [p.is_dir()] *)
Definition path_is_dir (f : node) (p : path) : bool :=
  match lookup_path (resolve p) f with
  | Some (Dir _) => true
  | _ => false
  end.

Definition print (s : string) : M unit :=
  fun w => (Ok tt, World (fs w) (stdout w ++ [s]) (events w)).

Definition log (e : event) (w : world) : world :=
  World (fs w) (stdout w) (events w ++ [e]).

(** [p.mkdir(parents=True, exist_ok=True)] *)
Definition mkdir_parents (p : path) : M unit :=
  fun w =>
    match makedirs (resolve p) (fs w) with
    | Some f => (Ok tt, with_fs f w)
    | None => (Raised (OSError "mkdir"), w)
    end.

(** [p.iterdir()]: the children of [p], in the order of the host. *)
Definition iterdir (p : path) : M (list path) :=
  fun w =>
    match lookup_path (resolve p) (fs w) with
    | Some (Dir es) => (Ok (map (join p) (listdir H es)), w)
    | _ => (Raised (OSError "scandir"), w)
    end.

(** [shutil.rmtree(p)]: a symbolic link is refused, a directory is removed
    with all it holds. *)
Definition rmtree (p : path) : M unit :=
  fun w =>
    if islink H (resolve p) (fs w)
    then (Raised (OSError "Cannot call rmtree on a symbolic link"), w)
    else if path_is_dir (fs w) p
    then (Ok tt, with_fs (remove_node (resolve p) (fs w)) w)
    else (Raised (OSError "rmtree"), w).

(** [p.unlink()] *)
Definition unlink (p : path) : M unit :=
  fun w =>
    if path_exists (fs w) p && negb (path_is_dir (fs w) p)
    then (Ok tt, with_fs (remove_node (resolve p) (fs w)) w)
    else (Raised (OSError "unlink"), w).

(** [shutil.move(src, dst)]: into [dst] when [dst] is a directory, onto
    [dst] otherwise; a directory does not replace a file, and nothing is
    moved below itself. *)
Definition shutil_move (src dst : path) : M unit :=
  fun w =>
    match lookup_path (resolve src) (fs w) with
    | None => (Raised (OSError "move: no such file"), w)
    | Some n =>
        let real_dst := if path_is_dir (fs w) dst then dst // name src else dst in
        if path_is_dir (fs w) dst && path_exists (fs w) real_dst
        then (Raised (OSError "move: destination exists"), w)
        else if is_dir_node n && path_exists (fs w) real_dst
        then (Raised (OSError "move: not a directory"), w)
        else if bool_decide (resolve src `prefix_of` resolve real_dst)
        then (Raised (OSError "move: into itself"), w)
        else if negb (path_is_dir (fs w) (parent real_dst))
        then (Raised (OSError "move: no such directory"), w)
        else (Ok tt,
              with_fs (put_node (resolve real_dst) n
                         (remove_node (resolve src) (fs w))) w)
    end.

(** [urllib.request.urlretrieve(url, filename)] *)
Definition urlretrieve (url : string) (filename : path) : M unit :=
  fun w =>
    let w1 := log (Download url) w in
    match urlopen H url with
    | None => (Raised (URLError url), w1)
    | Some body =>
        if path_is_dir (fs w) (parent filename) && negb (path_is_dir (fs w) filename)
        then (Ok tt, with_fs (put_node (resolve filename) (File body) (fs w)) w1)
        else (Raised (OSError "open"), w1)
    end.

(** [zipfile.ZipFile(archive).extractall(dest)]: the entries of the archive
    are written into [dest].  [zipfile] drops [..] and the root from member
    names, so every entry lands inside [dest]. *)
Definition extractall (decode : string → option (gmap string node))
    (archive dest : path) : M unit :=
  fun w =>
    match lookup_path (resolve archive) (fs w) with
    | Some (File data) =>
        match decode data with
        | Some tree =>
            match lookup_path (resolve dest) (fs w) with
            | Some (Dir es) =>
                (Ok tt, with_fs (put_node (resolve dest) (Dir (tree ∪ es)) (fs w)) w)
            | _ => (Raised (OSError "extractall"), w)
            end
        | None => (Raised (ArchiveError "bad archive"), w)
        end
    | _ => (Raised (OSError "open"), w)
    end.

(** Where a member name that leads out of [dest] ends. *)
Definition stray_target (dest : list string) (n : stray_name) : list string :=
  match n with
  | Up k parts => take (length dest - k) dest ++ parts
  | FromRoot parts => parts
  end.

(** One regular file extracted by [tarfile] at [p]: the directories above it
    are made, a file that is there is overwritten, a directory is not. *)
Definition write_file (p : list string) (data : string) : M unit :=
  fun w =>
    match makedirs (removelast p) (fs w) with
    | None => (Raised (OSError "makedirs"), w)
    | Some f =>
        match lookup_path p f with
        | Some (Dir _) => (Raised (OSError "open: is a directory"), with_fs f w)
        | _ => (Ok tt, with_fs (put_node p (File data) f) w)
        end
    end.

(** [tarfile.open(archive).extractall(dest)], called as the source calls it,
    with no filter on the member names: the entries of the archive are
    written into [dest], and a member whose name leads out of [dest] is
    written where its name leads. *)
Definition tar_extractall (decode : string → option tarball)
    (archive dest : path) : M unit :=
  fun w =>
    match lookup_path (resolve archive) (fs w) with
    | Some (File data) =>
        match decode data with
        | Some tar =>
            match lookup_path (resolve dest) (fs w) with
            | Some (Dir es) =>
                for_each (strays tar)
                  (fun m => write_file (stray_target (resolve dest) m.1) m.2)
                  (with_fs (put_node (resolve dest) (Dir (members tar ∪ es)) (fs w)) w)
            | _ => (Raised (OSError "extractall"), w)
            end
        | None => (Raised (ArchiveError "bad archive"), w)
        end
    | _ => (Raised (OSError "open"), w)
    end.

(** [tempfile.mkdtemp()]: the first drawn name that is free. *)
Definition mkdtemp : M path :=
  fun w =>
    match lookup_path (tempdir H) (fs w) with
    | Some (Dir es) =>
        match List.find (fun n => match es !! n with None => true | _ => false end)
                (tempnames H) with
        | Some n =>
            (Ok (Abs (tempdir H ++ [n])),
             with_fs (put_node (tempdir H ++ [n]) (Dir ∅) (fs w)) w)
        | None => (Raised (OSError "mkdtemp"), w)
        end
    | _ => (Raised (OSError "mkdtemp"), w)
    end.

(** [TemporaryDirectory.cleanup()] *)
Definition cleanup (tmpdir : path) (w : world) : world :=
  with_fs (remove_node (resolve tmpdir) (fs w)) w.

(** [with tempfile.TemporaryDirectory() as tmpdir: body] *)
Definition with_TemporaryDirectory {A} (body : path → M A) : M A :=
  tmpdir ← mkdtemp;
  finally (body tmpdir) (cleanup tmpdir).

(** [subprocess.call(cmd)] *)
Definition subprocess_call (cmd : list arg) : M Z :=
  fun w =>
    let w1 := log (Spawn cmd) w in
    match child H cmd (fs w) with
    | Some (code, f) => (Ok code, with_fs f w1)
    | None => (Raised (OSError "exec"), w1)
    end.

(** [sys.exit(code)] *)
Definition sys_exit {A} (code : Z) : M A := raise (SystemExit code).

(** ** The program *)

Definition NODE_VERSION : string := "20.11.0".

(** [get_node_paths]: where Node.js might be installed. *)
Definition get_node_paths : list path :=
  let home := Abs (home H) in
  if on_windows then
    [ home // ".claude-ssh-mcp" // "node";
      default (Abs ["C:"; "Program Files"]) (environ H "PROGRAMFILES") // "nodejs";
      default (Rel []) (environ H "LOCALAPPDATA") // "Programs" // "node" ]
  else
    [ home // ".claude-ssh-mcp" // "node";
      Abs ["usr"; "local"; "bin"];
      Abs ["usr"; "bin"];
      home // ".local" // "bin";
      home // ".nvm" // "versions" // "node" // ("v" +:+ NODE_VERSION) // "bin" ].

(** The file names of the runtime and of its launcher on this platform. *)
Definition runtime_name : string := if on_windows then "node.exe" else "node".

Definition launcher_name : string := if on_windows then "npx.cmd" else "npx".

(** The loop of [find_node] over the common installation paths. *)
Fixpoint find_node_in (f : node) (paths : list path) : option path :=
  match paths with
  | [] => None
  | base_path :: rest =>
      let node_exe :=
        if on_windows then base_path // "node.exe" else base_path // "node" in
      if path_exists f node_exe then Some node_exe else find_node_in f rest
  end.

(** [find_node] *)
Definition find_node (f : node) : option path :=
  let node_cmd := if on_windows then "node.exe" else "node" in
  match which H node_cmd f with
  | Some node_path => Some node_path
  | None => find_node_in f get_node_paths
  end.

(** [find_npx] *)
Definition find_npx (f : node) : option path :=
  let npx_cmd := if on_windows then "npx.cmd" else "npx" in
  match which H npx_cmd f with
  | Some npx_path => Some npx_path
  | None =>
      match find_node f with
      | Some node_path =>
          let node_dir := parent node_path in
          let npx_exe :=
            if on_windows then node_dir // "npx.cmd" else node_dir // "npx" in
          if path_exists f npx_exe then Some npx_exe else None
      | None => None
      end
  end.

(** The chain of tests on [machine] in [get_node_download_url]. *)
Definition node_arch (machine : string) : string :=
  if Str.in_tuple machine ["x86_64"; "amd64"] then "x64"
  else if Str.in_tuple machine ["arm64"; "aarch64"] then "arm64"
  else if Str.in_tuple machine ["i386"; "i686"; "x86"] then "x86"
  else "x64".

(** [get_node_download_url] *)
Definition get_node_download_url : string :=
  let system := Str.lower (system H) in
  let machine := Str.lower (machine H) in
  let arch := node_arch machine in
  if system =? "windows" then
    "https://nodejs.org/dist/v" +:+ NODE_VERSION +:+ "/node-v" +:+ NODE_VERSION
      +:+ "-win-" +:+ arch +:+ ".zip"
  else if system =? "darwin" then
    "https://nodejs.org/dist/v" +:+ NODE_VERSION +:+ "/node-v" +:+ NODE_VERSION
      +:+ "-darwin-" +:+ arch +:+ ".tar.gz"
  else
    "https://nodejs.org/dist/v" +:+ NODE_VERSION +:+ "/node-v" +:+ NODE_VERSION
      +:+ "-linux-" +:+ arch +:+ ".tar.xz".

Definition install_dir : path := Abs (home H) // ".claude-ssh-mcp" // "node".

(** [item.is_dir() and item.name.startswith("node-")] *)
Definition is_node_dir (f : node) (item : path) : bool :=
  path_is_dir f item && Str.startswith (name item) "node-".

(** The search for the extracted directory among the children of the
    temporary directory. *)
Fixpoint find_extracted (f : node) (items : list path) : option path :=
  match items with
  | [] => None
  | item :: rest =>
      if is_node_dir f item then Some item else find_extracted f rest
  end.

(** [install_nodejs], "Download": the archive is fetched into [tmpdir]. *)
Definition download (url : string) (tmpdir : path) : M path :=
  let archive_path :=
    if Str.endswith url ".zip" then tmpdir // "node.zip"
    else if Str.endswith url ".tar.xz" then tmpdir // "node.tar.xz"
    else tmpdir // "node.tar.gz" in
  urlretrieve url archive_path;;
  print "Extracting...";;
  mret archive_path.

(** [install_nodejs], "Extract". *)
Definition extract (url : string) (archive_path tmpdir : path) : M unit :=
  if Str.endswith url ".zip" then extractall (unzip H) archive_path tmpdir
  else if Str.endswith url ".tar.xz" then tar_extractall (untar_xz H) archive_path tmpdir
  else tar_extractall (untar_gz H) archive_path tmpdir.

(** [install_nodejs], "Find extracted directory". *)
Definition find_extracted_dir (tmpdir : path) : M path :=
  items ← iterdir tmpdir;
  extracted ← gets (fun f => find_extracted f items);
  match extracted with
  | None => raise (RuntimeError "Failed to find extracted Node.js directory")
  | Some extracted => mret extracted
  end.

(** The body of both move loops: what is at the destination goes, then the
    item is moved there. *)
Definition replace_entry (item : path) : M unit :=
  let dest := install_dir // name item in
  dest_exists ← gets (fun f => path_exists f dest);
  (if dest_exists : bool then
     dest_is_dir ← gets (fun f => path_is_dir f dest);
     if dest_is_dir : bool then rmtree dest else unlink dest
   else mret tt);;
  shutil_move item dest.

(** The move loop of the Windows branch. *)
Definition move_entries_windows (extracted : path) : M unit :=
  items ← iterdir extracted;
  for_each items (fun item =>
    let dest := install_dir // name item in
    dest_exists ← gets (fun f => path_exists f dest);
    (if dest_exists : bool then
       dest_is_dir ← gets (fun f => path_is_dir f dest);
       if dest_is_dir : bool then rmtree dest else unlink dest
     else mret tt);;
    shutil_move item dest).

(** The move loop of the Unix branch. *)
Definition move_entries_unix (extracted : path) : M unit :=
  items ← iterdir extracted;
  for_each items (fun item =>
    let dest := install_dir // name item in
    dest_exists ← gets (fun f => path_exists f dest);
    (if dest_exists : bool then
       dest_is_dir ← gets (fun f => path_is_dir f dest);
       if dest_is_dir : bool then rmtree dest else unlink dest
     else mret tt);;
    shutil_move item dest).

(** [install_nodejs], "Move to install location". *)
Definition move_to_install (extracted : path) : M unit :=
  if on_windows then move_entries_windows extracted
  else move_entries_unix extracted.

(** The body of the [with] block of [install_nodejs]. *)
Definition fetch_and_move (url : string) (tmpdir : path) : M unit :=
  archive_path ← download url tmpdir;
  extract url archive_path tmpdir;;
  extracted ← find_extracted_dir tmpdir;
  move_to_install extracted.

(** [install_nodejs] up to the end of the [with] block. *)
Definition install_files : M unit :=
  mkdir_parents install_dir;;
  let url := get_node_download_url in
  print ("Downloading Node.js from " +:+ url +:+ "...");;
  with_TemporaryDirectory (fetch_and_move url).

Definition node_exe : path :=
  if on_windows then install_dir // "node.exe"
  else install_dir // "bin" // "node".

(** [install_nodejs], "Verify installation". *)
Definition verify_installation : M path :=
  node_exists ← gets (fun f => path_exists f node_exe);
  if negb node_exists then
    raise (RuntimeError
             ("Node.js installation failed - " +:+ str node_exe +:+ " not found"))
  else
    print ("Node.js installed to " +:+ str install_dir);;
    mret node_exe.

(** [install_nodejs] *)
Definition install_nodejs : M path :=
  install_files;;
  verify_installation.

(** The directory the [with] block of [install_nodejs] is entered with, if
    it is reached from [w]. *)
Definition entered_tmpdir (w : world) : option path :=
  match (mkdir_parents install_dir;;
         print ("Downloading Node.js from " +:+ get_node_download_url +:+ "...");;
         mkdtemp) w with
  | (Ok tmpdir, _) => Some tmpdir
  | (Raised _, _) => None
  end.

(** [ensure_nodejs] *)
Definition ensure_nodejs : M path :=
  node_path ← gets find_node;
  match node_path with
  | Some node_path => mret node_path
  | None =>
      print "Node.js not found. Installing...";;
      install_nodejs
  end.

(** [run_npx] *)
Definition run_npx (args : list string) : M Z :=
  npx_path ← gets find_npx;
  npx_path ←
    match npx_path with
    | Some npx_path => mret npx_path
    | None =>
        node_path ← ensure_nodejs;
        let node_dir := parent node_path in
        if on_windows then mret (node_dir // "npx.cmd")
        else mret (node_dir // "npx")
    end;
  let cmd := [ArgPath npx_path] ++ map ArgStr args in
  subprocess_call cmd.

(** The launcher that [run_npx] hands to the child process: [run_npx] up to
    the construction of the argument vector. *)
Definition launcher_to_run : M path :=
  npx_path ← gets find_npx;
  match npx_path with
  | Some npx_path => mret npx_path
  | None =>
      node_path ← ensure_nodejs;
      let node_dir := parent node_path in
      if on_windows then mret (node_dir // "npx.cmd")
      else mret (node_dir // "npx")
  end.

(** [main] *)
Definition main : M unit :=
  ensure_nodejs;;
  code ← run_npx ["-y"; "claude-ssh-mcp"];
  sys_exit code.

(** [install] *)
Definition install : M unit :=
  ensure_nodejs;;
  code ← run_npx ["-y"; "claude-ssh-mcp"];
  sys_exit code.

End Program.

Arguments on_windows : simpl never.

(** ** The words of the specification

    Definitions that follow the specification rather than the program, for
    the statements that compare the two. *)

Module Spec.

Inductive os_token := windows | darwin | linux.
Inductive arch_token := x64 | arm64 | x86.
Inductive archive_kind := zip | tar_gz | tar_xz.

(** Platform Identifier, on the normalised names. *)
Definition os_of (system : string) : os_token :=
  if system =? "windows" then windows
  else if system =? "darwin" then darwin
  else linux.

Definition arch_of (machine : string) : arch_token :=
  if (machine =? "x86_64") || (machine =? "amd64") then x64
  else if (machine =? "arm64") || (machine =? "aarch64") then arm64
  else if (machine =? "i386") || (machine =? "i686") || (machine =? "x86") then x86
  else x64.

Definition kind_of (os : os_token) : archive_kind :=
  match os with
  | windows => zip
  | darwin => tar_gz
  | linux => tar_xz
  end.

Definition os_text (os : os_token) : string :=
  match os with
  | windows => "windows"
  | darwin => "darwin"
  | linux => "linux"
  end.

Definition arch_text (arch : arch_token) : string :=
  match arch with
  | x64 => "x64"
  | arm64 => "arm64"
  | x86 => "x86"
  end.

Definition kind_text (kind : archive_kind) : string :=
  match kind with
  | zip => "zip"
  | tar_gz => "tar.gz"
  | tar_xz => "tar.xz"
  end.

(** [https://{vendor-host}/dist/v{version}/{distName}-v{version}-{os}-{arch}.{ext}] *)
Definition url_template (vendor_host version distName os arch ext : string) : string :=
  "https://" +:+ vendor_host +:+ "/dist/v" +:+ version +:+ "/" +:+ distName
    +:+ "-v" +:+ version +:+ "-" +:+ os +:+ "-" +:+ arch +:+ "." +:+ ext.

(** The URL with the tokens of the Platform Identifier written as the
    specification names them. *)
Definition download_url (H : host) : string :=
  let os := os_of (Str.lower (system H)) in
  let arch := arch_of (Str.lower (machine H)) in
  url_template "nodejs.org" NODE_VERSION "node"
    (os_text os) (arch_text arch) (kind_text (kind_of os)).

(** The first candidate base directory that holds [filename]. *)
Fixpoint first_existing (H : host) (f : node) (filename : string)
    (bases : list path) : option path :=
  match bases with
  | [] => None
  | base :: rest =>
      if path_exists H f (base // filename) then Some (base // filename)
      else first_existing H f filename rest
  end.

(** Locating the launcher in three steps: the search path, the candidate
    base directories, the sibling of the resolved runtime. *)
Definition locate_launcher (H : host) (f : node) : option path :=
  match which H (launcher_name H) f with
  | Some p => Some p
  | None =>
      match first_existing H f (launcher_name H) (get_node_paths H) with
      | Some p => Some p
      | None =>
          match find_node H f with
          | Some runtime =>
              let p := parent runtime // launcher_name H in
              if path_exists H f p then Some p else None
          | None => None
          end
      end
  end.

End Spec.

(** The operating-system token as the program writes it in the URL. *)
Definition os_in_url (os : Spec.os_token) : string :=
  match os with
  | Spec.windows => "win"
  | Spec.darwin => "darwin"
  | Spec.linux => "linux"
  end.

(** ** Hosts and worlds to run the program on *)

Module Demo.

(** A search path: the first of [dirs] that holds a file named [cmd]. *)
Definition which_in (dirs : list (list string)) (cmd : string) (f : node) : option path :=
  (fun d => Abs (d ++ [cmd])) <$> List.find
    (fun d => match lookup_path (d ++ [cmd]) f with Some (File _) => true | _ => false end)
    dirs.

(** A child that exits with 0 when its executable is a file, and cannot be
    started otherwise. *)
Definition run_child (cmd : list arg) (f : node) : option (Z * node) :=
  match cmd with
  | ArgPath p :: _ =>
      match lookup_path (parts_of p) f with
      | Some (File _) => Some (0%Z, f)
      | _ => None
      end
  | _ => None
  end.

Definition in_order (es : gmap string node) : list string := (map_to_list es).*1.

Definition dist_linux : gmap string node :=
  {[ "node-v20.11.0-linux-x64" :=
       Dir {[ "bin" := Dir {[ "node" := File "ELF"; "npx" := File "#!" ]};
              "lib" := Dir ∅ ]} ]}.

Definition dist_windows : gmap string node :=
  {[ "node-v20.11.0-win-x64" :=
       Dir {[ "node.exe" := File "MZ"; "npx.cmd" := File "@" ]} ]}.

(** A Linux machine, given what the network serves and the tar archive
    that what is served decodes to. *)
Definition linux_tar (served : option string) (tar : option tarball) : host := {|
  system := "Linux"; machine := "x86_64";
  home := ["home"; "u"]; cwd := ["home"; "u"];
  environ := fun _ => None;
  which := which_in [["usr"; "bin"]];
  listdir := in_order;
  islink := fun _ _ => false;
  urlopen := fun url =>
    if url =? "https://nodejs.org/dist/v20.11.0/node-v20.11.0-linux-x64.tar.xz"
    then served else None;
  unzip := fun _ => None;
  untar_xz := fun _ => tar;
  untar_gz := fun _ => None;
  tempdir := ["tmp"]; tempnames := ["tmpa"; "tmpb"];
  child := run_child
|}.

(** The same, for an archive with all its members inside. *)
Definition linux_with (served : option string)
    (decoded : option (gmap string node)) : host :=
  linux_tar served ((fun es => Tarball es []) <$> decoded).

Definition linux_host : host := linux_with (Some "xz") (Some dist_linux).

(** The network is down. *)
Definition offline_host : host := linux_with None None.

(** What is served is no archive. *)
Definition corrupt_host : host := linux_with (Some "<html>") None.

(** The archive has no directory named [node-...]. *)
Definition misnamed_host : host :=
  linux_with (Some "xz") (Some {[ "nodejs" := Dir {[ "bin" := Dir ∅ ]} ]}).

(** The distribution lacks [bin/node]. *)
Definition hollow_host : host :=
  linux_with (Some "xz") (Some {[ "node-v20.11.0-linux-x64" := Dir {[ "lib" := Dir ∅ ]} ]}).

(** The distribution, and a member named [../outside.txt] beside it. *)
Definition straying_host : host :=
  linux_tar (Some "xz")
    (Some (Tarball dist_linux [(Up 1 ["outside.txt"], "out")])).

(** The distribution, and three members with names from the root that lead
    into the install directory: [marker] twice, and [bin] as a regular
    file between the two. *)
Definition planting_host : host :=
  linux_tar (Some "xz")
    (Some (Tarball dist_linux
             [ (FromRoot ["home"; "u"; ".claude-ssh-mcp"; "node"; "marker"], "1");
               (FromRoot ["home"; "u"; ".claude-ssh-mcp"; "node"; "bin"], "x");
               (FromRoot ["home"; "u"; ".claude-ssh-mcp"; "node"; "marker"], "2") ])).

(** The Linux machine with [<home>/.claude-ssh-mcp/node/bin] a symbolic link
    (to a directory, in the worlds where the tree has a directory there). *)
Definition linked_host : host := {|
  system := system linux_host; machine := machine linux_host;
  home := home linux_host; cwd := cwd linux_host;
  environ := environ linux_host;
  which := which linux_host;
  listdir := listdir linux_host;
  islink := fun p _ =>
    bool_decide (p = ["home"; "u"; ".claude-ssh-mcp"; "node"; "bin"]);
  urlopen := urlopen linux_host;
  unzip := unzip linux_host;
  untar_xz := untar_xz linux_host;
  untar_gz := untar_gz linux_host;
  tempdir := tempdir linux_host; tempnames := tempnames linux_host;
  child := child linux_host
|}.

Definition windows_host : host := {|
  system := "Windows"; machine := "AMD64";
  home := ["C:"; "Users"; "u"]; cwd := ["C:"; "Users"; "u"];
  environ := fun _ => None;
  which := which_in [["C:"; "Windows"]];
  listdir := in_order;
  islink := fun _ _ => false;
  urlopen := fun url =>
    if url =? "https://nodejs.org/dist/v20.11.0/node-v20.11.0-win-x64.zip"
    then Some "zip" else None;
  unzip := fun data => if data =? "zip" then Some dist_windows else None;
  untar_xz := fun _ => None;
  untar_gz := fun _ => None;
  tempdir := ["C:"; "Temp"]; tempnames := ["tmpa"; "tmpb"];
  child := run_child
|}.

Definition world_of (f : node) : world := World f [] [].

(** No runtime anywhere. *)
Definition bare : node :=
  Dir {[ "tmp" := Dir ∅;
         "home" := Dir {[ "u" := Dir ∅ ]};
         "usr" := Dir {[ "bin" := Dir ∅ ]} ]}.

(** The runtime on the search path, without its launcher. *)
Definition node_only : node :=
  Dir {[ "tmp" := Dir ∅;
         "home" := Dir {[ "u" := Dir ∅ ]};
         "usr" := Dir {[ "bin" := Dir {[ "node" := File "ELF" ]} ]} ]}.

(** A launcher in a candidate directory, and no runtime. *)
Definition npx_only : node :=
  Dir {[ "tmp" := Dir ∅;
         "home" := Dir {[ "u" := Dir ∅ ]};
         "usr" := Dir {[ "bin" := Dir ∅;
                         "local" := Dir {[ "bin" := Dir {[ "npx" := File "#!" ]} ]} ]} ]}.

(** An earlier installation that has files the distribution lacks. *)
Definition stale : node :=
  Dir {[ "tmp" := Dir ∅;
         "home" := Dir {[ "u" := Dir {[ ".claude-ssh-mcp" := Dir {[ "node" :=
             Dir {[ "bin" := Dir {[ "old" := File "old" ]};
                    "lib" := File "not a directory";
                    "CHANGELOG" := File "old" ]} ]} ]} ]};
         "usr" := Dir {[ "bin" := Dir ∅ ]} ]}.

(** A temporary directory with two extracted distributions among other
    entries: a directory with another name, a file named [node-...] and the
    archive. *)
Definition two_dists : node :=
  Dir {[ "tmp" := Dir {[ "x" :=
           Dir {[ "src" := Dir ∅; "node-notes" := File "text";
                  "node-v18.0.0-linux-x64" := Dir ∅;
                  "node-v20.11.0-linux-x64" := Dir ∅;
                  "node.tar.xz" := File "xz" ]} ]} ]}.

Definition bare_windows : node :=
  Dir {[ "C:" := Dir {[ "Temp" := Dir ∅;
                        "Users" := Dir {[ "u" := Dir ∅ ]};
                        "Windows" := Dir ∅ ]} ]}.

(** The runtime in a candidate directory that is not on the search path. *)
Definition node_in_local : node :=
  Dir {[ "tmp" := Dir ∅;
         "home" := Dir {[ "u" := Dir ∅ ]};
         "usr" := Dir {[ "bin" := Dir ∅;
                         "local" := Dir {[ "bin" := Dir {[ "node" := File "ELF" ]} ]} ]} ]}.

(** The runtime and its launcher in a candidate directory. *)
Definition node_npx_local : node :=
  Dir {[ "tmp" := Dir ∅;
         "home" := Dir {[ "u" := Dir ∅ ]};
         "usr" := Dir {[ "bin" := Dir ∅;
                         "local" := Dir {[ "bin" :=
                             Dir {[ "node" := File "ELF"; "npx" := File "#!" ]} ]} ]} ]}.

(** An earlier installation with its executable in place. *)
Definition old_install : node :=
  Dir {[ "tmp" := Dir ∅;
         "home" := Dir {[ "u" := Dir {[ ".claude-ssh-mcp" := Dir {[ "node" :=
             Dir {[ "bin" := Dir {[ "node" := File "old ELF" ]} ]} ]} ]} ]};
         "usr" := Dir {[ "bin" := Dir ∅ ]} ]}.

(** A Windows machine with a runtime below the working directory. *)
Definition windows_cwd_node : node :=
  Dir {[ "C:" := Dir {[ "Temp" := Dir ∅;
                        "Users" := Dir {[ "u" := Dir {[ "Programs" :=
                            Dir {[ "node" := Dir {[ "node.exe" := File "MZ" ]} ]} ]} ]};
                        "Windows" := Dir ∅ ]} ]}.

End Demo.

(** ** The installer as a function

    What the proofs about reinstallation are stated in. *)

(** Two paths are apart when neither is above the other. *)
Definition apart (p q : list string) : Prop :=
  ¬ p `prefix_of` q ∧ ¬ q `prefix_of` p.

(** The components of [install_dir]. *)
Definition install_parts (H : host) : list string :=
  (home H ++ [".claude-ssh-mcp"]) ++ ["node"].

(** The host lists a directory faithfully: every entry, once. *)
Definition listing_faithful (H : host) : Prop :=
  ∀ es : gmap string node,
    NoDup (listdir H es) ∧ ∀ k, k ∈ listdir H es ↔ is_Some (es !! k).

(** The file name [install_nodejs] downloads to, and the entries that the
    decoder it opens the archive with puts inside the directory extracted
    to. *)
Definition archive_name (url : string) : string :=
  if Str.endswith url ".zip" then "node.zip"
  else if Str.endswith url ".tar.xz" then "node.tar.xz"
  else "node.tar.gz".

Definition decoder (H : host) (url : string) : string → option (gmap string node) :=
  if Str.endswith url ".zip" then unzip H
  else if Str.endswith url ".tar.xz" then fun data => members <$> untar_xz H data
  else fun data => members <$> untar_gz H data.

(** No entry of the install directory is a symbolic link. *)
Definition entries_not_links (H : host) : Prop :=
  ∀ c f, islink H (install_parts H ++ [c]) f = false.

(** No tar archive that the host decodes has a member whose name leads out
    of the directory it is extracted to. *)
Definition archives_confined (H : host) : Prop :=
  ∀ data tar,
    untar_xz H data = Some tar ∨ untar_gz H data = Some tar → strays tar = [].

(** The entries that an installation moves into the install directory: the
    children of the first listed directory named [node-...] among what the
    download and the extraction leave in the temporary directory. *)
Definition distribution (H : host) : option (gmap string node) :=
  let url := get_node_download_url H in
  body ← urlopen H url;
  tree ← decoder H url body;
  let extracted : gmap string node := tree ∪ {[ archive_name url := File body ]} in
  nm ← List.find
         (fun c => match extracted !! c with
                   | Some (Dir _) => Str.startswith c "node-"
                   | _ => false
                   end)
         (listdir H extracted);
  match extracted !! nm with
  | Some (Dir es) => Some es
  | _ => None
  end.

(** The name [mkdtemp] takes in the file system [f]. *)
Definition free_name (H : host) (f : node) : option string :=
  match lookup_path (tempdir H) f with
  | Some (Dir es) =>
      List.find (fun n => match es !! n with None => true | _ => false end) (tempnames H)
  | _ => None
  end.

(** Every listed entry of [dist] set in the install directory. *)
Definition move_in (H : host) (dist : gmap string node) (f : node) : node :=
  foldl (fun g c => set_at (install_parts H ++ [c]) (dist !! c) g) f (listdir H dist).

(** The file system that [install_nodejs] leaves, as a function of the one it
    starts in. *)
Definition installed (H : host) (f : node) : node :=
  match makedirs (install_parts H) f with
  | None => f
  | Some f1 =>
      match free_name H f1, distribution H with
      | Some _, Some dist => move_in H dist f1
      | _, _ => f1
      end
  end.

(** Directory, file or nothing. *)
Definition kind (o : option node) : option bool := is_dir_node <$> o.

(** * Properties *)

(** ** Platform tokens and the download URL *)

Lemma in_tuple_elem_of (s : string) (t : list string) :
  Str.in_tuple s t = true ↔ s ∈ t.
Proof.
  unfold Str.in_tuple. rewrite existsb_exists. split.
  - intros (x & Hx & Heq). apply String.eqb_eq in Heq as ->.
    by apply list_elem_of_In.
  - intros Hin. exists s. split; [by apply list_elem_of_In | apply String.eqb_refl].
Qed.

Lemma in_tuple_not_elem_of (s : string) (t : list string) :
  Str.in_tuple s t = false ↔ s ∉ t.
Proof.
  rewrite <- in_tuple_elem_of. destruct (Str.in_tuple s t); split; congruence.
Qed.

(** C3.  The chain of tests on the machine name sends [x86_64] and [amd64]
    to [x64], [arm64] and [aarch64] to [arm64], [i386], [i686] and [x86] to
    [x86], and every other string to [x64]; it is a total function, so every
    string gets one of the three tokens and none raises. *)
Theorem node_arch_mapping (machine : string) :
  (machine ∈ ["x86_64"; "amd64"] → node_arch machine = "x64") ∧
  (machine ∈ ["arm64"; "aarch64"] → node_arch machine = "arm64") ∧
  (machine ∈ ["i386"; "i686"; "x86"] → node_arch machine = "x86") ∧
  (machine ∉ ["x86_64"; "amd64"; "arm64"; "aarch64"; "i386"; "i686"; "x86"] →
     node_arch machine = "x64") ∧
  node_arch machine ∈ ["x64"; "arm64"; "x86"].
Proof.
  unfold node_arch.
  destruct (Str.in_tuple machine ["x86_64"; "amd64"]) eqn:E1;
    [apply in_tuple_elem_of in E1 | apply in_tuple_not_elem_of in E1];
  (destruct (Str.in_tuple machine ["arm64"; "aarch64"]) eqn:E2;
    [apply in_tuple_elem_of in E2 | apply in_tuple_not_elem_of in E2]);
  (destruct (Str.in_tuple machine ["i386"; "i686"; "x86"]) eqn:E3;
    [apply in_tuple_elem_of in E3 | apply in_tuple_not_elem_of in E3]);
  rewrite ?elem_of_cons, ?elem_of_nil in *;
  repeat split; intros; try tauto; try (exfalso; intuition congruence).
Qed.

(** The machine name reaches the chain in lower case: a Windows machine
    that reports [ARM64] gets the [arm64] archive. *)
Lemma machine_name_is_lowered :
  node_arch (Str.lower "ARM64") = "arm64" ∧ node_arch "ARM64" = "x64".
Proof. by vm_compute. Qed.

(** The tokens of the specification name the same architecture. *)
Lemma node_arch_arch_of (machine : string) :
  node_arch machine = Spec.arch_text (Spec.arch_of machine).
Proof.
  unfold node_arch, Spec.arch_of, Str.in_tuple. simpl.
  rewrite !orb_false_r.
  by repeat (destruct (_ =? _); simpl).
Qed.

(** On the name the operating system really reports, the program writes
    [win] where the template of the specification has [windows]. *)
Lemma download_url_windows_differs :
  get_node_download_url Demo.windows_host ≠ Spec.download_url Demo.windows_host.
Proof. by vm_compute. Qed.

(** C1, as amended.  On every host the URL is the template
    [https://nodejs.org/dist/v{version}/node-v{version}-{os}-{arch}.{ext}]
    with [os] one of [win], [darwin], [linux], [arch] the architecture token
    and [ext] the archive kind of the operating system. *)
Theorem download_url_template (H : host) :
  let os := Spec.os_of (Str.lower (system H)) in
  let arch := Spec.arch_of (Str.lower (machine H)) in
  get_node_download_url H =
    Spec.url_template "nodejs.org" NODE_VERSION "node"
      (os_in_url os) (Spec.arch_text arch) (Spec.kind_text (Spec.kind_of os)).
Proof.
  simpl. unfold get_node_download_url, Spec.os_of.
  rewrite node_arch_arch_of.
  destruct (Spec.arch_of _);
    destruct (Str.lower (system H) =? "windows");
    [| destruct (Str.lower (system H) =? "darwin") | |
     destruct (Str.lower (system H) =? "darwin") | |
     destruct (Str.lower (system H) =? "darwin")];
    reflexivity.
Qed.

(** ** Running the monad *)

Lemma bind_run {A B} (m : M A) (k : A → M B) (w : world) :
  (m ≫= k) w =
    match m w with
    | (Ok a, w') => k a w'
    | (Raised e, w') => (Raised e, w')
    end.
Proof. reflexivity. Qed.

Lemma bind_ok {A B} (m : M A) (k : A → M B) (w w' : world) (a : A) :
  m w = (Ok a, w') → (m ≫= k) w = k a w'.
Proof. intros Hm. by rewrite bind_run, Hm. Qed.

Lemma bind_raised {A B} (m : M A) (k : A → M B) (w w' : world) (e : exn) :
  m w = (Raised e, w') → (m ≫= k) w = (Raised e, w').
Proof. intros Hm. by rewrite bind_run, Hm. Qed.

Lemma gets_run {A} (g : node → A) (w : world) : gets g w = (Ok (g (fs w)), w).
Proof. reflexivity. Qed.

(** ** Locating the runtime and its launcher *)

Lemma find_node_in_first_existing (H : host) (f : node) (paths : list path) :
  find_node_in H f paths = Spec.first_existing H f (runtime_name H) paths.
Proof.
  unfold runtime_name. induction paths as [|base rest IH]; simpl; [done|].
  rewrite IH. by destruct (on_windows H).
Qed.

(** The launcher is in a candidate directory, the runtime is nowhere: the
    three steps of the specification find the launcher, the program does
    not. *)
Lemma find_npx_skips_candidates :
  find_npx Demo.linux_host Demo.npx_only = None ∧
  Spec.locate_launcher Demo.linux_host Demo.npx_only
    = Some (Abs ["usr"; "local"; "bin"; "npx"]).
Proof. by vm_compute. Qed.

(** C2, as amended.  The launcher is (1) what the search path gives for the
    launcher's file name; (2) else, when the runtime is located (on the
    search path, else in the first candidate base directory that holds it),
    the launcher's file name beside the runtime if that file exists; not
    found otherwise.  The candidate directories are probed for the runtime
    only. *)
Theorem find_npx_steps (H : host) (f : node) (p : path) :
  (find_npx H f = Some p ↔
     which H (launcher_name H) f = Some p ∨
     (which H (launcher_name H) f = None ∧
      ∃ runtime, find_node H f = Some runtime ∧
        p = parent runtime // launcher_name H ∧ path_exists H f p = true)) ∧
  (find_node H f = Some p ↔
     which H (runtime_name H) f = Some p ∨
     (which H (runtime_name H) f = None ∧
      Spec.first_existing H f (runtime_name H) (get_node_paths H) = Some p)).
Proof.
  split.
  - unfold find_npx, launcher_name.
    destruct (on_windows H);
      (destruct (which H _ f) as [q|]; [intuition congruence|]);
      (destruct (find_node H f) as [runtime|];
         [|split; [done | intros [|(_ & ? & ? & _)]; done]]);
      (destruct (path_exists H f _) eqn:E;
         (split;
          [ intros [= <-]; right; eauto
          | intros [|(_ & ? & [= <-] & -> & E')]; [done | congruence] ])).
  - unfold find_node. rewrite find_node_in_first_existing. unfold runtime_name.
    destruct (on_windows H);
      (destruct (which H _ f) as [q|]; intuition congruence).
Qed.

(** ** Provisioning *)

(** C5.  When the locator finds the runtime, [ensure_nodejs] returns that
    path and the world is untouched: the same file system, nothing printed,
    no request sent and no process started. *)
Theorem ensure_nodejs_present (H : host) (w : world) (p : path) :
  find_node H (fs w) = Some p →
  ensure_nodejs H w = (Ok p, w).
Proof.
  intros Hfound. unfold ensure_nodejs.
  rewrite bind_run, gets_run, Hfound. reflexivity.
Qed.

Lemma ensure_nodejs_present_witness :
  ensure_nodejs Demo.linux_host (Demo.world_of Demo.node_only)
    = (Ok (Abs ["usr"; "bin"; "node"]), Demo.world_of Demo.node_only).
Proof. apply ensure_nodejs_present. by vm_compute. Defined.

(** ** Delegation *)

Lemma run_npx_launcher (H : host) (args : list string) :
  run_npx H args =
    (npx_path ← launcher_to_run H;
     subprocess_call H ([ArgPath npx_path] ++ map ArgStr args)).
Proof. reflexivity. Qed.

(** C10.  When the launcher is not found, [run_npx] ensures the runtime and
    hands the launcher's name beside it to the child process as it is: the
    outcome is the outcome of the spawn, whether that file exists or not. *)
Theorem run_npx_spawns_sibling (H : host) (args : list string)
    (w w1 : world) (node_path : path) :
  find_npx H (fs w) = None →
  ensure_nodejs H w = (Ok node_path, w1) →
  run_npx H args w =
    subprocess_call H
      (ArgPath (parent node_path // launcher_name H) :: map ArgStr args) w1.
Proof.
  intros Hnpx Hnode. unfold run_npx, launcher_name.
  rewrite bind_run, gets_run, Hnpx.
  rewrite !bind_run, Hnode.
  by destruct (on_windows H).
Qed.

Lemma run_npx_spawns_sibling_witness :
  path_exists Demo.linux_host Demo.node_only (Abs ["usr"; "bin"; "npx"]) = false ∧
  run_npx Demo.linux_host ["-y"; "claude-ssh-mcp"] (Demo.world_of Demo.node_only) =
    subprocess_call Demo.linux_host
      [ArgPath (Abs ["usr"; "bin"; "npx"]); ArgStr "-y"; ArgStr "claude-ssh-mcp"]
      (Demo.world_of Demo.node_only).
Proof.
  split; [by vm_compute|].
  apply (run_npx_spawns_sibling Demo.linux_host ["-y"; "claude-ssh-mcp"]
           (Demo.world_of Demo.node_only) (Demo.world_of Demo.node_only)
           (Abs ["usr"; "bin"; "node"])); by vm_compute.
Defined.

(** The spawn of a launcher that is not there is attempted and logged. *)
Lemma run_npx_missing_launcher_is_spawned :
  run_npx Demo.linux_host ["-y"; "claude-ssh-mcp"] (Demo.world_of Demo.node_only) =
    (Raised (OSError "exec"),
     World Demo.node_only []
       [Spawn [ArgPath (Abs ["usr"; "bin"; "npx"]); ArgStr "-y"; ArgStr "claude-ssh-mcp"]]).
Proof. by vm_compute. Qed.

(** C9.  [main] and [install] are the same computation: the runtime is
    ensured first; then the launcher is resolved and spawned with the
    arguments [-y] and [claude-ssh-mcp]; the exit code of the child is the
    code the entry point exits with. *)
Theorem entry_points_equivalent (H : host) (w : world) :
  main H w = install H w ∧
  main H w =
    match ensure_nodejs H w with
    | (Raised e, w1) => (Raised e, w1)
    | (Ok _, w1) =>
        match launcher_to_run H w1 with
        | (Raised e, w2) => (Raised e, w2)
        | (Ok launcher, w2) =>
            let cmd := [ArgPath launcher; ArgStr "-y"; ArgStr "claude-ssh-mcp"] in
            match child H cmd (fs w2) with
            | Some (code, f) =>
                (Raised (SystemExit code), with_fs f (log (Spawn cmd) w2))
            | None => (Raised (OSError "exec"), log (Spawn cmd) w2)
            end
        end
    end.
Proof.
  split; [reflexivity|].
  unfold main. rewrite bind_run.
  destruct (ensure_nodejs H w) as [[node_path|e] w1]; [|reflexivity].
  rewrite bind_run, run_npx_launcher, bind_run.
  destruct (launcher_to_run H w1) as [[launcher|e] w2]; [|reflexivity].
  simpl. unfold subprocess_call.
  by destruct (child H _ (fs w2)) as [[code f]|].
Qed.

(** ** Lookups in file-system trees *)

Lemma set_at_cons_cons (c c' : string) (p : list string) (o : option node) (f : node) :
  set_at (c :: c' :: p) o f = on_entries (alter (set_at (c' :: p) o) c) f.
Proof. reflexivity. Qed.

Lemma lookup_path_app (p r : list string) (f : node) :
  lookup_path (p ++ r) f = lookup_path p f ≫= lookup_path r.
Proof.
  revert f. induction p as [|c p IH]; intros f; simpl; [done|].
  destruct f as [|es]; [done|].
  destruct (es !! c) as [m|]; simpl; [apply IH | done].
Qed.

(** What has been removed is not there. *)
Lemma lookup_path_removed (p : list string) (f : node) :
  p ≠ [] → lookup_path p (remove_node p f) = None.
Proof.
  unfold remove_node. revert f.
  induction p as [|c [|c' p] IH]; intros f Hp; [done| |].
  - destruct f as [|es]; simpl; [done|].
    by rewrite lookup_partial_alter_eq.
  - rewrite set_at_cons_cons. destruct f as [|es]; [done|].
    cbn [on_entries lookup_path]. rewrite lookup_alter_eq.
    destruct (es !! c) as [m|]; simpl; [by apply IH | done].
Qed.

(** ** Verification *)

Lemma verify_installation_run (H : host) (w : world) :
  verify_installation H w =
    if path_exists H (fs w) (node_exe H)
    then (Ok (node_exe H),
          World (fs w)
            (stdout w ++ ["Node.js installed to " +:+ str H (install_dir H)])
            (events w))
    else (Raised (RuntimeError
                    ("Node.js installation failed - " +:+ str H (node_exe H)
                       +:+ " not found")), w).
Proof.
  unfold verify_installation. rewrite bind_run, gets_run.
  by destruct (path_exists H (fs w) (node_exe H)).
Qed.

Lemma verify_installation_fs (H : host) (w : world) :
  fs (verify_installation H w).2 = fs w.
Proof.
  rewrite verify_installation_run. by destruct (path_exists _ _ _).
Qed.

(** C7.  Once the files are moved, [install_nodejs] looks for
    [<install dir>/node.exe] on Windows and [<install dir>/bin/node]
    elsewhere: it raises the installation failure exactly when nothing is
    at that path, and returns the path when something is. *)
Theorem install_nodejs_verifies (H : host) (w w1 : world) :
  install_files H w = (Ok tt, w1) →
  parts_of (node_exe H) =
    home H ++ [".claude-ssh-mcp"; "node"]
      ++ (if on_windows H then ["node.exe"] else ["bin"; "node"]) ∧
  (path_exists H (fs w1) (node_exe H) = false ↔
     ∃ msg, (install_nodejs H w).1 = Raised (RuntimeError msg)) ∧
  (path_exists H (fs w1) (node_exe H) = true ↔
     (install_nodejs H w).1 = Ok (node_exe H)).
Proof.
  intros Hfiles. split; [|split].
  - unfold node_exe, install_dir. destruct (on_windows H); simpl;
      by rewrite <- ?app_assoc.
  - unfold install_nodejs. rewrite (bind_ok _ _ _ _ _ Hfiles), verify_installation_run.
    destruct (path_exists H (fs w1) (node_exe H)); simpl; split; try done.
    + by intros [msg ?].
    + eauto.
  - unfold install_nodejs. rewrite (bind_ok _ _ _ _ _ Hfiles), verify_installation_run.
    by destruct (path_exists H (fs w1) (node_exe H)).
Qed.

Lemma install_nodejs_verifies_witness :
  (install_nodejs Demo.linux_host (Demo.world_of Demo.bare)).1
    = Ok (Abs ["home"; "u"; ".claude-ssh-mcp"; "node"; "bin"; "node"]).
Proof.
  apply (install_nodejs_verifies Demo.linux_host (Demo.world_of Demo.bare)
           (install_files Demo.linux_host (Demo.world_of Demo.bare)).2).
  - by vm_compute.
  - by vm_compute.
Defined.

(** On Windows the executable is looked for in the install directory
    itself. *)
Lemma install_nodejs_verifies_windows :
  (install_nodejs Demo.windows_host (Demo.world_of Demo.bare_windows)).1
    = Ok (Abs ["C:"; "Users"; "u"; ".claude-ssh-mcp"; "node"; "node.exe"]).
Proof. by vm_compute. Qed.

(** A distribution without [bin/node] is moved in and then refused. *)
Lemma install_nodejs_refuses_hollow :
  (install_files Demo.hollow_host (Demo.world_of Demo.bare)).1 = Ok tt ∧
  (install_nodejs Demo.hollow_host (Demo.world_of Demo.bare)).1 =
    Raised (RuntimeError
      "Node.js installation failed - /home/u/.claude-ssh-mcp/node/bin/node not found").
Proof. by vm_compute. Qed.

(** ** The temporary directory *)

Lemma mkdtemp_path (H : host) (w w1 : world) (tmpdir : path) :
  mkdtemp H w = (Ok tmpdir, w1) →
  ∃ n, tmpdir = Abs (tempdir H ++ [n]).
Proof.
  unfold mkdtemp. intros Hmk.
  destruct (lookup_path (tempdir H) (fs w)) as [[|es]|]; try done.
  destruct (List.find _ (tempnames H)) as [n|]; [|done].
  exists n. congruence.
Qed.

(** However the body of the [with] block ends, the directory it was given
    is not there afterwards. *)
Lemma with_TemporaryDirectory_removes {A} (H : host) (body : path → M A)
    (w w1 : world) (tmpdir : path) :
  mkdtemp H w = (Ok tmpdir, w1) →
  path_exists H (fs (with_TemporaryDirectory H body w).2) tmpdir = false.
Proof.
  intros Hmk. destruct (mkdtemp_path _ _ _ _ Hmk) as [n ->].
  unfold with_TemporaryDirectory. rewrite (bind_ok _ _ _ _ _ Hmk).
  unfold finally. destruct (body _ w1) as [r w2]. simpl.
  unfold path_exists. simpl. rewrite lookup_path_removed; [done|].
  by destruct (tempdir H).
Qed.

Lemma with_TemporaryDirectory_not_entered {A} (H : host) (body : path → M A)
    (w w1 : world) (e : exn) :
  mkdtemp H w = (Raised e, w1) →
  with_TemporaryDirectory H body w = (Raised e, w1).
Proof. intros Hmk. unfold with_TemporaryDirectory. by rewrite (bind_raised _ _ _ _ _ Hmk). Qed.

Lemma install_nodejs_removes_tmpdir (H : host) (w : world) (tmpdir : path) :
  entered_tmpdir H w = Some tmpdir →
  path_exists H (fs (install_nodejs H w).2) tmpdir = false.
Proof.
  unfold entered_tmpdir, install_nodejs, install_files.
  rewrite !bind_run.
  destruct (mkdir_parents H (install_dir H) w) as [[[]|e] w1]; [|done].
  rewrite !bind_run. cbn [print].
  set (w2 := World (fs w1) _ (events w1)).
  destruct (mkdtemp H w2) as [[t|e] w3] eqn:Hmk; [|done].
  intros [= ->].
  pose proof (with_TemporaryDirectory_removes H
                (fetch_and_move H (get_node_download_url H)) _ _ _ Hmk) as Hgone.
  destruct (with_TemporaryDirectory H _ w2) as [[[]|e] w4]; simpl in *.
  - by rewrite verify_installation_fs.
  - done.
Qed.

Lemma entered_tmpdir_print (H : host) (w : world) (s : string) :
  entered_tmpdir H (print s w).2 = entered_tmpdir H w.
Proof.
  unfold entered_tmpdir. rewrite !bind_run. simpl.
  unfold mkdir_parents. simpl.
  destruct (makedirs _ (fs w)) as [f|]; [|done]. simpl.
  rewrite !bind_run. simpl. unfold mkdtemp. simpl.
  destruct (lookup_path (tempdir H) f) as [[|es]|]; try done.
  by destruct (List.find _ (tempnames H)).
Qed.

(** C6.  The directory that the [with] block of the installer is entered
    with does not exist when [install_nodejs], and [ensure_nodejs] through
    it, returns or raises: after a successful installation, and after a
    failed download, extraction, search or verification alike. *)
Theorem tmpdir_removed_on_every_exit (H : host) (w : world) (tmpdir : path) :
  entered_tmpdir H w = Some tmpdir →
  path_exists H (fs (install_nodejs H w).2) tmpdir = false ∧
  (find_node H (fs w) = None →
   path_exists H (fs (ensure_nodejs H w).2) tmpdir = false).
Proof.
  intros Hentered. split; [by apply install_nodejs_removes_tmpdir|].
  intros Habsent. unfold ensure_nodejs.
  rewrite bind_run, gets_run, Habsent, bind_run.
  apply install_nodejs_removes_tmpdir.
  by rewrite <- Hentered, <- (entered_tmpdir_print H w "Node.js not found. Installing...").
Qed.

Lemma tmpdir_removed_on_every_exit_witness :
  path_exists Demo.linux_host
    (fs (install_nodejs Demo.linux_host (Demo.world_of Demo.bare)).2)
    (Abs ["tmp"; "tmpa"]) = false ∧
  path_exists Demo.linux_host
    (fs (ensure_nodejs Demo.linux_host (Demo.world_of Demo.bare)).2)
    (Abs ["tmp"; "tmpa"]) = false.
Proof.
  destruct (tmpdir_removed_on_every_exit Demo.linux_host (Demo.world_of Demo.bare)
              (Abs ["tmp"; "tmpa"])) as [Hinstall Hensure].
  - by vm_compute.
  - split; [exact Hinstall | apply Hensure; by vm_compute].
Defined.

(** The four failing exits: a failed download, an archive that does not
    decode, no directory named [node-...], a distribution without the
    executable.  Each raises, and the temporary directory is gone. *)
Lemma tmpdir_removed_after_failures :
  let gone (H : host) :=
    path_exists H (fs (install_nodejs H (Demo.world_of Demo.bare)).2)
      (Abs ["tmp"; "tmpa"]) = false in
  let entered (H : host) :=
    entered_tmpdir H (Demo.world_of Demo.bare) = Some (Abs ["tmp"; "tmpa"]) in
  (entered Demo.offline_host ∧ gone Demo.offline_host ∧
   (install_nodejs Demo.offline_host (Demo.world_of Demo.bare)).1 =
     Raised (URLError "https://nodejs.org/dist/v20.11.0/node-v20.11.0-linux-x64.tar.xz")) ∧
  (entered Demo.corrupt_host ∧ gone Demo.corrupt_host ∧
   (install_nodejs Demo.corrupt_host (Demo.world_of Demo.bare)).1 =
     Raised (ArchiveError "bad archive")) ∧
  (entered Demo.misnamed_host ∧ gone Demo.misnamed_host ∧
   (install_nodejs Demo.misnamed_host (Demo.world_of Demo.bare)).1 =
     Raised (RuntimeError "Failed to find extracted Node.js directory")) ∧
  (entered Demo.hollow_host ∧ gone Demo.hollow_host ∧
   (install_nodejs Demo.hollow_host (Demo.world_of Demo.bare)).1 =
     Raised (RuntimeError
       "Node.js installation failed - /home/u/.claude-ssh-mcp/node/bin/node not found")).
Proof. by vm_compute. Qed.

(** ** Updates of file-system trees *)

#[local] Arguments set_at : simpl never.


Lemma apart_sym (p q : list string) : apart p q → apart q p.
Proof. intros [??]. by split. Qed.

Lemma apart_cons_inv (c : string) (p q : list string) :
  apart (c :: p) (c :: q) → apart p q.
Proof. intros [Hpq Hqp]. split; intros ?; [apply Hpq | apply Hqp]; by apply prefix_cons. Qed.

Lemma apart_cons_ne (c d : string) (p q : list string) :
  c ≠ d → apart (c :: p) (d :: q).
Proof. intros Hne. split; intros Hpre%prefix_cons_inv_1; congruence. Qed.

Lemma apart_app (p q r1 r2 : list string) :
  apart p q → apart (p ++ r1) (q ++ r2).
Proof.
  revert q. induction p as [|c p IH]; intros q Hapart.
  - destruct Hapart as [[] _]. apply prefix_nil.
  - destruct q as [|d q].
    + destruct Hapart as [_ []]. apply prefix_nil.
    + destruct (decide (c = d)) as [->|Hne].
      * apply apart_cons_inv, IH in Hapart. destruct Hapart as [Hpq Hqp].
        split; intros Hpre%prefix_cons_inv_2; tauto.
      * by apply apart_cons_ne.
Qed.

Lemma apart_app_l (p q r : list string) : apart p q → apart (p ++ r) q.
Proof. intros Hapart. rewrite <- (app_nil_r q). by apply apart_app. Qed.

Lemma apart_app_r (p q r : list string) : apart p q → apart p (q ++ r).
Proof. intros Hapart. rewrite <- (app_nil_r p). by apply apart_app. Qed.

Lemma apart_siblings (p r1 r2 : list string) (a b : string) :
  a ≠ b → apart (p ++ a :: r1) (p ++ b :: r2).
Proof.
  intros Hne. induction p as [|c p IH]; simpl.
  - by apply apart_cons_ne.
  - destruct IH as [Hab Hba].
    split; intros Hpre%prefix_cons_inv_2; tauto.
Qed.

Lemma set_at_cons (c : string) (p : list string) (o : option node) (f : node) :
  set_at (c :: p) o f =
    on_entries
      (partial_alter (fun x => match p with [] => o | _ => set_at p o <$> x end) c) f.
Proof. by destruct p. Qed.

Lemma lookup_set_at_apart (p q : list string) (o : option node) (f : node) :
  apart p q → lookup_path q (set_at p o f) = lookup_path q f.
Proof.
  revert q f. induction p as [|c p IH]; intros q f Hapart.
  - destruct Hapart as [[] _]. apply prefix_nil.
  - destruct q as [|d q].
    { destruct Hapart as [_ []]. apply prefix_nil. }
    rewrite set_at_cons. destruct f as [|es]; [done|]. simpl.
    destruct (decide (c = d)) as [<-|Hne].
    + rewrite lookup_partial_alter_eq. apply apart_cons_inv in Hapart.
      destruct p as [|c' p].
      { destruct Hapart as [[] _]. apply prefix_nil. }
      destruct (es !! c) as [m|]; simpl; [by apply IH | done].
    + by rewrite lookup_partial_alter_ne.
Qed.

Lemma lookup_set_at_parent (p : list string) (a : string) (o : option node) (f : node) :
  lookup_path p (set_at (p ++ [a]) o f)
    = on_entries (partial_alter (fun _ => o) a) <$> lookup_path p f.
Proof.
  revert f. induction p as [|c p IH]; intros f; [done|].
  cbn [app]. rewrite set_at_cons. destruct f as [|es]; [by destruct p|].
  cbn [on_entries lookup_path]. rewrite lookup_partial_alter_eq.
  destruct (es !! c) as [m|]; simpl.
  - destruct p; simpl; apply IH.
  - by destruct p.
Qed.

Lemma lookup_path_snoc (p : list string) (a : string) (f : node) :
  lookup_path (p ++ [a]) f =
    match lookup_path p f with
    | Some (Dir es) => es !! a
    | _ => None
    end.
Proof.
  rewrite lookup_path_app. destruct (lookup_path p f) as [[|es]|]; simpl; [done| |done].
  by destruct (es !! a).
Qed.

Lemma lookup_set_at_self (p : list string) (a : string) (o : option node) (f : node) :
  lookup_path (p ++ [a]) (set_at (p ++ [a]) o f) =
    match lookup_path p f with
    | Some (Dir _) => o
    | _ => None
    end.
Proof.
  rewrite lookup_path_snoc, lookup_set_at_parent.
  destruct (lookup_path p f) as [[|es]|]; simpl; [done| |done].
  by rewrite lookup_partial_alter_eq.
Qed.

Lemma set_at_absorb (p r : list string) (o o' : option node) (f : node) :
  p ≠ [] → set_at p o (set_at (p ++ r) o' f) = set_at p o f.
Proof.
  revert f. induction p as [|c p IH]; intros f Hp; [done|].
  cbn [app]. rewrite !set_at_cons. destruct f as [|es]; [done|].
  cbn [on_entries]. f_equal. rewrite partial_alter_partial_alter_eq.
  apply partial_alter_ext. intros x _.
  destruct p as [|c' p]; simpl; [done|].
  destruct x as [m|]; simpl; [|done].
  f_equal. by apply IH.
Qed.

Lemma set_at_comm (p q : list string) (o o' : option node) (f : node) :
  apart p q → set_at p o (set_at q o' f) = set_at q o' (set_at p o f).
Proof.
  revert q f. induction p as [|c p IH]; intros q f Hapart.
  - destruct Hapart as [[] _]. apply prefix_nil.
  - destruct q as [|d q].
    { destruct Hapart as [_ []]. apply prefix_nil. }
    rewrite !set_at_cons. destruct f as [|es]; [done|].
    cbn [on_entries]. f_equal.
    destruct (decide (c = d)) as [<-|Hne].
    + apply apart_cons_inv in Hapart.
      destruct p as [|c' p]. { destruct Hapart as [[] _]. apply prefix_nil. }
      destruct q as [|d' q]. { destruct Hapart as [_ []]. apply prefix_nil. }
      rewrite !partial_alter_partial_alter_eq. apply partial_alter_ext.
      intros [m|] _; simpl; [|done]. f_equal. by apply IH.
    + by apply partial_alter_partial_alter_ne.
Qed.

Lemma set_at_None_absent (p : list string) (f : node) :
  lookup_path p f = None → set_at p None f = f.
Proof.
  revert f. induction p as [|c p IH]; intros f Hnone; [done|].
  rewrite set_at_cons. destruct f as [|es]; [done|].
  cbn [on_entries]. f_equal. simpl in Hnone.
  apply partial_alter_id.
  destruct (es !! c) as [m|] eqn:Hc; simpl in *.
  - destruct p as [|c' p]; [done|]. simpl. f_equal. by apply IH.
  - by destruct p.
Qed.

Lemma makedirs_lookup (p : list string) (f f1 : node) :
  makedirs p f = Some f1 → ∃ es, lookup_path p f1 = Some (Dir es).
Proof.
  revert f f1. induction p as [|c p IH]; intros f f1 Hmk.
  - destruct f as [|es]; [done|]. simpl in Hmk. simplify_eq. by eexists.
  - destruct f as [|es]; [done|]. simpl in Hmk.
    destruct (makedirs p (default (Dir ∅) (es !! c))) as [sub|] eqn:Hsub; [|done].
    simpl in Hmk. simplify_eq. simpl. rewrite lookup_insert_eq. simpl. by eapply IH.
Qed.

Lemma makedirs_existing (p : list string) (f : node) (es : gmap string node) :
  lookup_path p f = Some (Dir es) → makedirs p f = Some f.
Proof.
  revert f. induction p as [|c p IH]; intros f Hdir.
  - simpl in Hdir. by simplify_eq.
  - destruct f as [|fes]; [done|]. simpl in *.
    destruct (fes !! c) as [m|] eqn:Hc; [|done]. simpl in *.
    rewrite (IH _ Hdir). simpl. by rewrite insert_id.
Qed.

(** ** The move into the install directory *)

Lemma install_dir_parts (H : host) : install_dir H = Abs (install_parts H).
Proof. reflexivity. Qed.

Lemma move_entries_windows_loop (H : host) (extracted : path) :
  move_entries_windows H extracted =
    (items ← iterdir H extracted; for_each items (replace_entry H)).
Proof. reflexivity. Qed.

Lemma move_entries_unix_loop (H : host) (extracted : path) :
  move_entries_unix H extracted =
    (items ← iterdir H extracted; for_each items (replace_entry H)).
Proof. reflexivity. Qed.

Lemma snoc_not_nil {A} (l : list A) (a : A) : l ++ [a] ≠ [].
Proof. by destruct l. Qed.

Lemma prefix_snoc_inv {A} (p q : list A) (a : A) :
  p `prefix_of` q ++ [a] → p `prefix_of` q ∨ p = q ++ [a].
Proof.
  intros [k Hk]. destruct k as [|b k _] using rev_ind.
  - right. by rewrite app_nil_r in Hk.
  - left. rewrite app_assoc in Hk. apply app_inj_tail in Hk as [-> _].
    by apply prefix_app_r.
Qed.

Lemma find_pointwise {A} (f g : A → bool) (l : list A) :
  (∀ x, f x = g x) → List.find f l = List.find g l.
Proof.
  intros Hfg. induction l as [|x l IH]; simpl; [done|].
  by rewrite Hfg, IH.
Qed.

Lemma name_join (p : path) (c : string) : name (p // c) = c.
Proof. unfold name. destruct p; simpl; apply last_last. Qed.

Lemma fs_with_fs (g : node) (w : world) : fs (with_fs g w) = g.
Proof. reflexivity. Qed.

(** Whatever is at the destination is removed, by [rmtree] or by [unlink]. *)
Lemma clear_destination_run (H : host) (dest : path) (g : node) (w : world) :
  islink H (resolve H dest) g = false →
  (if path_exists H g dest
   then dest_is_dir ← gets (fun f => path_is_dir H f dest);
        if dest_is_dir : bool then rmtree H dest else unlink H dest
   else mret tt) (with_fs g w)
  = (Ok tt, with_fs (remove_node (resolve H dest) g) w).
Proof.
  intros Hlink.
  destruct (path_exists H g dest) eqn:Hex.
  - rewrite bind_run, gets_run, fs_with_fs.
    destruct (path_is_dir H g dest) eqn:Hd.
    + unfold rmtree. by rewrite fs_with_fs, Hlink, Hd.
    + unfold unlink. by rewrite fs_with_fs, Hex, Hd.
  - unfold remove_node. rewrite set_at_None_absent; [done|].
    unfold path_exists in Hex. by destruct (lookup_path _ g).
Qed.

Section Move.

Variable H : host.
Variables (t : list string) (nm : string).
Hypothesis t_apart : apart t (install_parts H).
Hypothesis not_links : entries_not_links H.

Local Abbreviation I := (install_parts H).

(** One round of the loop: the destination is cleared, the item leaves the
    extracted directory and arrives in the install directory. *)
Lemma replace_entry_run (c : string) (v : node) (g : node) (w : world)
    (D : gmap string node) :
  lookup_path I g = Some (Dir D) →
  lookup_path (t ++ [nm; c]) g = Some v →
  replace_entry H (Abs (t ++ [nm]) // c) (with_fs g w) =
    (Ok tt,
     with_fs (set_at (I ++ [c]) (Some v)
                (set_at (t ++ [nm; c]) None (set_at (I ++ [c]) None g))) w).
Proof.
  intros HI Hsrc.
  assert (Happ : (t ++ [nm]) ++ [c] = t ++ [nm; c]) by by rewrite <- app_assoc.
  assert (Hsrc_dst : apart (t ++ [nm; c]) (I ++ [c])) by by apply apart_app.
  unfold replace_entry.
  change (Abs ((t ++ [nm]) ++ [c])) with (Abs (t ++ [nm]) // c).
  rewrite name_join, install_dir_parts. cbn [join].
  rewrite bind_run, gets_run, fs_with_fs.
  rewrite bind_run, clear_destination_run by apply not_links.
  cbn [resolve]. unfold remove_node.
  set (g1 := set_at (I ++ [c]) None g).
  assert (Hdest : lookup_path (I ++ [c]) g1 = None).
  { apply lookup_path_removed, snoc_not_nil. }
  assert (Hsrc1 : lookup_path (t ++ [nm; c]) g1 = Some v).
  { unfold g1. rewrite lookup_set_at_apart; [done | by apply apart_sym]. }
  assert (HI1 : path_is_dir H g1 (Abs I) = true).
  { unfold path_is_dir, g1. cbn [resolve]. by rewrite lookup_set_at_parent, HI. }
  assert (Hnodir : path_is_dir H g1 (Abs (I ++ [c])) = false).
  { unfold path_is_dir. cbn [resolve]. by rewrite Hdest. }
  assert (Hnone : path_exists H g1 (Abs (I ++ [c])) = false).
  { unfold path_exists. cbn [resolve]. by rewrite Hdest. }
  unfold shutil_move. rewrite !fs_with_fs. cbn [resolve]. rewrite Happ, Hsrc1.
  rewrite Hnodir. cbv beta iota. rewrite Hnone, !andb_false_r.
  cbn [resolve parent]. rewrite bool_decide_eq_false_2 by apply Hsrc_dst.
  rewrite removelast_last, HI1.
  reflexivity.
Qed.

Lemma t_not_nil : t ≠ [].
Proof. intros ->. destruct t_apart as [[] _]. apply prefix_nil. Qed.

(** The effect of one round outside the temporary directory. *)
Lemma replace_entry_outside (c : string) (v : node) (g : node) :
  remove_node t
    (set_at (I ++ [c]) (Some v)
       (set_at (t ++ [nm; c]) None (set_at (I ++ [c]) None g)))
  = set_at (I ++ [c]) (Some v) (remove_node t g).
Proof.
  assert (Hapart : apart t (I ++ [c])) by apply apart_app_r, t_apart.
  unfold remove_node.
  rewrite (set_at_comm t (I ++ [c])) by done.
  rewrite (set_at_absorb t [nm; c]) by apply t_not_nil.
  rewrite (set_at_comm t (I ++ [c])) by done.
  rewrite <- (app_nil_r (I ++ [c])) at 2.
  by rewrite set_at_absorb by apply snoc_not_nil.
Qed.

(** The whole loop: every listed entry of the extracted directory is moved,
    and outside the temporary directory each one has been set in the
    install directory. *)
Lemma move_loop_run (dist : gmap string node) (cs : list string) :
  NoDup cs →
  ∀ (g : node) (w : world) (D : gmap string node),
    lookup_path I g = Some (Dir D) →
    (∀ c, c ∈ cs → ∃ v, dist !! c = Some v ∧ lookup_path (t ++ [nm; c]) g = Some v) →
    ∃ g',
      for_each (map (join (Abs (t ++ [nm]))) cs) (replace_entry H) (with_fs g w)
        = (Ok tt, with_fs g' w) ∧
      remove_node t g'
        = foldl (fun g c => set_at (I ++ [c]) (dist !! c) g) (remove_node t g) cs.
Proof.
  induction 1 as [|c cs Hc Hnodup IH]; intros g w D HI Hsrc.
  - by exists g.
  - destruct (Hsrc c) as (v & Hv & Hcv); [by left|].
    cbn [map for_each]. rewrite bind_run, (replace_entry_run c v g w D HI Hcv).
    set (g2 := set_at (I ++ [c]) (Some v) _).
    destruct (IH g2 w (<[c := v]> (delete c D))) as (g' & Hrun & Hout).
    + unfold g2. rewrite lookup_set_at_parent.
      rewrite lookup_set_at_apart by apply apart_app_l, t_apart.
      by rewrite lookup_set_at_parent, HI.
    + intros c' Hc'. destruct (Hsrc c') as (v' & Hv' & Hcv'); [by right|].
      exists v'. split; [done|].
      assert (c ≠ c') by (intros ->; done).
      unfold g2.
      assert (Hsib : apart (t ++ [nm; c]) (t ++ [nm; c'])).
      { change (apart (t ++ [nm] ++ [c]) (t ++ [nm] ++ [c'])).
        rewrite !app_assoc. by apply apart_siblings. }
      assert (Hside : apart (I ++ [c]) (t ++ [nm; c'])).
      { apply apart_sym, apart_app, t_apart. }
      by rewrite !lookup_set_at_apart.
    + exists g'. split; [done|].
      rewrite Hout. cbn [foldl]. unfold g2.
      by rewrite replace_entry_outside, Hv.
Qed.

End Move.

(** ** The installer as a function on the file system *)

Lemma lookup_path_parent (p : list string) (a : string) (f : node) :
  is_Some (lookup_path (p ++ [a]) f) → ∃ es, lookup_path p f = Some (Dir es).
Proof.
  rewrite lookup_path_snoc. destruct (lookup_path p f) as [[|es]|]; intros [x Hx]; try done.
  by exists es.
Qed.

Lemma lookup_set_at_existing (p : list string) (o : option node) (f : node) :
  p ≠ [] → is_Some (lookup_path p f) → lookup_path p (set_at p o f) = o.
Proof.
  intros Hp Hsome. destruct (exists_last Hp) as (p' & a & ->).
  rewrite lookup_set_at_self.
  by destruct (lookup_path_parent _ _ _ Hsome) as [es ->].
Qed.

(** Inside the [with] block the temporary directory is there. *)
Lemma mkdtemp_creates (H : host) (w w1 : world) (tmpdir : path) :
  mkdtemp H w = (Ok tmpdir, w1) → path_is_dir H (fs w1) tmpdir = true.
Proof.
  unfold mkdtemp.
  destruct (lookup_path (tempdir H) (fs w)) as [[|es]|] eqn:HT; try done.
  destruct (List.find _ (tempnames H)) as [n|]; [|done].
  intros [= <- <-]. unfold path_is_dir, put_node. cbn [resolve fs with_fs].
  by rewrite lookup_set_at_self, HT.
Qed.

Lemma print_run (s : string) (w : world) :
  print s w = (Ok tt, World (fs w) (stdout w ++ [s]) (events w)).
Proof. reflexivity. Qed.

Lemma mret_run {A} (a : A) (w : world) : (mret a : M A) w = (Ok a, w).
Proof. reflexivity. Qed.

Lemma download_run (H : host) (url : string) (tmpdir : path) :
  download H url tmpdir =
    (urlretrieve H url (tmpdir // archive_name url);;
     print "Extracting...";;
     mret (tmpdir // archive_name url)).
Proof.
  unfold download, archive_name.
  by destruct (Str.endswith url ".zip"), (Str.endswith url ".tar.xz").
Qed.

(** With no member that leads out, [tarfile] writes what [zipfile] would. *)
Lemma tar_extractall_confined (H : host) (decode : string → option tarball)
    (archive dest : path) (w : world) :
  (∀ data tar, decode data = Some tar → strays tar = []) →
  tar_extractall H decode archive dest w =
    extractall H (fun data => members <$> decode data) archive dest w.
Proof.
  intros Hconfined. unfold tar_extractall, extractall.
  destruct (lookup_path (resolve H archive) (fs w)) as [[data|]|]; try done.
  destruct (decode data) as [tar|] eqn:Hdecode; [|done].
  rewrite (Hconfined _ _ Hdecode). cbn [fmap option_fmap option_map].
  by destruct (lookup_path (resolve H dest) (fs w)) as [[|es]|].
Qed.

Lemma extract_run (H : host) (url : string) (archive_path tmpdir : path) (w : world) :
  archives_confined H →
  extract H url archive_path tmpdir w =
    extractall H (decoder H url) archive_path tmpdir w.
Proof.
  intros Hconfined. unfold extract, decoder.
  destruct (Str.endswith url ".zip"); [done|].
  destruct (Str.endswith url ".tar.xz");
    apply tar_extractall_confined; intros data tar Hdecode;
    apply (Hconfined data); auto.
Qed.

Lemma move_to_install_run (H : host) (extracted : path) :
  move_to_install H extracted =
    (items ← iterdir H extracted; for_each items (replace_entry H)).
Proof. unfold move_to_install. by destruct (on_windows H). Qed.

Lemma resolve_join (H : host) (p : path) (c : string) :
  resolve H (p // c) = resolve H p ++ [c].
Proof. destruct p as [l|l]; cbn [join resolve]; [done | by rewrite app_assoc]. Qed.

Lemma find_extracted_listed (H : host) (f : node) (tmpdir : path)
    (es : gmap string node) (names : list string) :
  lookup_path (resolve H tmpdir) f = Some (Dir es) →
  find_extracted H f (map (join tmpdir) names) =
    join tmpdir <$>
      List.find (fun c => match es !! c with
                          | Some (Dir _) => Str.startswith c "node-"
                          | _ => false
                          end) names.
Proof.
  intros Ht. induction names as [|c names IH]; [done|].
  cbn [map find_extracted List.find]. rewrite IH.
  unfold is_node_dir. rewrite name_join.
  unfold path_is_dir. rewrite resolve_join, lookup_path_snoc, Ht.
  destruct (es !! c) as [[|sub]|]; simpl; try done.
  by destruct (Str.startswith c "node-").
Qed.

(** ** The extracted directory *)

Lemma find_skips {A} (test : A → bool) (before after : list A) (x : A) :
  Forall (fun y => test y = false) before →
  test x = true →
  List.find test (before ++ x :: after) = Some x.
Proof.
  intros Hbefore Hx. induction Hbefore as [|y before Hy _ IH]; simpl.
  - by rewrite Hx.
  - by rewrite Hy.
Qed.

Lemma find_nothing {A} (test : A → bool) (l : list A) :
  Forall (fun y => test y = false) l → List.find test l = None.
Proof. induction 1 as [|y l Hy _ IH]; simpl; [done|]. by rewrite Hy. Qed.

(** C8.  Let the temporary directory hold the entries [es], listed by the
    host in the order [listdir H es].  The first listed name that starts
    with [node-] and at which [es] has a directory is the extracted
    directory: every name listed before it is passed over because it does
    not start with [node-] or has no directory, and what is listed after it
    is not looked at, although it may match as well.  When no listed name is
    such a directory the installer raises
    [RuntimeError "Failed to find extracted Node.js directory"].  The file
    system is not changed by the search. *)
Theorem find_extracted_dir_first_match (H : host) (tmpdir : path) (w : world)
    (es : gmap string node) :
  lookup_path (resolve H tmpdir) (fs w) = Some (Dir es) →
  (∀ before c after sub,
     listdir H es = before ++ c :: after →
     Forall (fun x => (∀ d, es !! x ≠ Some (Dir d)) ∨ String.prefix "node-" x = false)
       before →
     es !! c = Some (Dir sub) →
     String.prefix "node-" c = true →
     find_extracted_dir H tmpdir w = (Ok (tmpdir // c), w)) ∧
  (Forall (fun x => (∀ d, es !! x ≠ Some (Dir d)) ∨ String.prefix "node-" x = false)
     (listdir H es) →
   find_extracted_dir H tmpdir w =
     (Raised (RuntimeError "Failed to find extracted Node.js directory"), w)).
Proof.
  intros Hdir.
  assert (Hiter : iterdir H tmpdir w = (Ok (map (join tmpdir) (listdir H es)), w)).
  { unfold iterdir. by rewrite Hdir. }
  assert (Hskip : ∀ l,
    Forall (fun x => (∀ d, es !! x ≠ Some (Dir d)) ∨ String.prefix "node-" x = false) l →
    Forall (fun x => match es !! x with
                     | Some (Dir _) => Str.startswith x "node-"
                     | _ => false
                     end = false) l).
  { intros l Hl. eapply Forall_impl; [exact Hl|]. intros x Hx. cbv beta in *.
    destruct (es !! x) as [[data|d]|]; [done| |done].
    destruct Hx as [Hx | Hx]; [by destruct (Hx d) | exact Hx]. }
  unfold find_extracted_dir.
  rewrite (bind_ok _ _ _ _ _ Hiter), bind_run, gets_run.
  rewrite (find_extracted_listed H (fs w) tmpdir es _ Hdir).
  split.
  - intros before c after sub -> Hbefore%Hskip Hc Hprefix.
    rewrite (find_skips _ before after c Hbefore); [done|]. by rewrite Hc.
  - intros Hnone%Hskip. by rewrite (find_nothing _ _ Hnone).
Qed.

Lemma find_extracted_dir_first_match_witness :
  Demo.in_order
    {[ "src" := Dir ∅; "node-notes" := File "text";
       "node-v18.0.0-linux-x64" := Dir ∅; "node-v20.11.0-linux-x64" := Dir ∅;
       "node.tar.xz" := File "xz" ]}
    = ["src"; "node-notes"; "node-v18.0.0-linux-x64"; "node-v20.11.0-linux-x64";
       "node.tar.xz"] ∧
  find_extracted_dir Demo.linux_host (Abs ["tmp"; "x"]) (Demo.world_of Demo.two_dists)
    = (Ok (Abs ["tmp"; "x"; "node-v18.0.0-linux-x64"]), Demo.world_of Demo.two_dists).
Proof.
  split; [vm_compute; reflexivity|].
  pose (es := {[ "src" := Dir ∅; "node-notes" := File "text";
                 "node-v18.0.0-linux-x64" := Dir ∅;
                 "node-v20.11.0-linux-x64" := Dir ∅;
                 "node.tar.xz" := File "xz" ]} : gmap string node).
  assert (Hdir : lookup_path (resolve Demo.linux_host (Abs ["tmp"; "x"]))
                   (fs (Demo.world_of Demo.two_dists)) = Some (Dir es)).
  { vm_compute. reflexivity. }
  apply (proj1 (find_extracted_dir_first_match Demo.linux_host (Abs ["tmp"; "x"])
                  (Demo.world_of Demo.two_dists) es Hdir)
           ["src"; "node-notes"] "node-v18.0.0-linux-x64"
           ["node-v20.11.0-linux-x64"; "node.tar.xz"] ∅).
  - vm_compute. reflexivity.
  - constructor; [right; vm_compute; reflexivity|].
    constructor; [|constructor].
    left. intros d Hd. vm_compute in Hd. discriminate Hd.
  - vm_compute. reflexivity.
  - vm_compute. reflexivity.
Defined.

Section Install.

Variable H : host.
Hypothesis listing : listing_faithful H.
Hypothesis confined : archives_confined H.

Local Abbreviation I := (install_parts H).
Local Abbreviation url := (get_node_download_url H).

(** The body of the [with] block, seen from outside the temporary
    directory. *)
Lemma fetch_and_move_outside (t : list string) (w : world) (D : gmap string node) :
  apart t I →
  lookup_path t (fs w) = Some (Dir ∅) →
  lookup_path I (fs w) = Some (Dir D) →
  distribution H = None ∨ entries_not_links H →
  remove_node t (fs (fetch_and_move H url (Abs t) w).2) =
    match distribution H with
    | Some dist => move_in H dist (remove_node t (fs w))
    | None => remove_node t (fs w)
    end.
Proof.
  intros Hapart Ht HI Hmoves.
  assert (Htnil : t ≠ []) by by apply (t_not_nil H).
  unfold fetch_and_move, distribution.
  rewrite bind_run, download_run, !bind_run.
  unfold urlretrieve at 1.
  destruct (urlopen H url) as [body|] eqn:Hbody; [|done].
  cbn [mbind option_bind].
  set (aname := archive_name url).
  assert (Hparent : path_is_dir H (fs w) (parent (Abs t // aname)) = true).
  { unfold path_is_dir. cbn [join parent resolve]. by rewrite removelast_last, Ht. }
  assert (Hfresh : path_is_dir H (fs w) (Abs t // aname) = false).
  { unfold path_is_dir. cbn [join resolve]. by rewrite lookup_path_snoc, Ht. }
  rewrite Hparent, Hfresh. cbn [andb negb join resolve].
  set (g3 := put_node (t ++ [aname]) (File body) (fs w)).
  rewrite bind_run, print_run, mret_run. cbv beta iota.
  rewrite bind_run, extract_run by done. unfold extractall.
  cbn [fs with_fs stdout events log resolve].
  assert (Harchive : lookup_path (t ++ [aname]) g3 = Some (File body)).
  { unfold g3, put_node. by rewrite lookup_set_at_self, Ht. }
  assert (Ht3 : lookup_path t g3 = Some (Dir {[ aname := File body ]})).
  { unfold g3, put_node. by rewrite lookup_set_at_parent, Ht. }
  assert (Hout3 : remove_node t g3 = remove_node t (fs w)).
  { unfold g3, put_node, remove_node. by rewrite set_at_absorb. }
  rewrite Harchive.
  destruct (decoder H url body) as [tree|] eqn:Hdecode; [|exact Hout3].
  cbn [mbind option_bind]. rewrite Ht3. cbv beta iota.
  set (extracted := tree ∪ {[ aname := File body ]}).
  set (g4 := put_node t (Dir extracted) g3).
  assert (Ht4 : lookup_path t g4 = Some (Dir extracted)).
  { unfold g4, put_node. rewrite lookup_set_at_existing; [done..|]. by rewrite Ht3. }
  assert (Hout4 : remove_node t g4 = remove_node t (fs w)).
  { rewrite <- Hout3. unfold g4, put_node, remove_node. rewrite <- (app_nil_r t) at 2.
    by rewrite set_at_absorb. }
  unfold find_extracted_dir. rewrite !bind_run.
  unfold iterdir at 1. cbn [fs with_fs resolve]. rewrite Ht4.
  cbv beta iota. rewrite bind_run.
  rewrite gets_run. cbn [fs with_fs]. cbv beta iota.
  rewrite (find_extracted_listed H g4 (Abs t) extracted _ Ht4).
  destruct (List.find _ (listdir H extracted)) as [nm|] eqn:Hfind; [|exact Hout4].
  pose proof Hfind as [_ Hnm]%find_some.
  destruct (extracted !! nm) as [[|dist]|] eqn:Hdist; try done.
  assert (not_links : entries_not_links H).
  { destruct Hmoves as [Hnone | Hlinks]; [|done].
    unfold distribution in Hnone. rewrite Hbody in Hnone.
    cbn [mbind option_bind] in Hnone. rewrite Hdecode in Hnone.
    cbn [mbind option_bind] in Hnone. fold aname extracted in Hnone.
    rewrite Hfind in Hnone. cbn [mbind option_bind] in Hnone.
    by rewrite Hdist in Hnone. }
  cbn [fmap option_fmap option_map mbind option_bind join].
  rewrite Hdist, mret_run. cbv beta iota.
  rewrite move_to_install_run, bind_run. unfold iterdir. cbn [fs with_fs resolve].
  assert (Hnm4 : lookup_path (t ++ [nm]) g4 = Some (Dir dist)).
  { by rewrite lookup_path_snoc, Ht4. }
  rewrite Hnm4.
  destruct (listing dist) as [Hnodup Hlisted].
  match goal with |- context [for_each _ _ ?w4] => set (w' := w4) end.
  destruct (move_loop_run H t nm Hapart not_links dist (listdir H dist) Hnodup g4 w' D)
    as (g' & Hrun & Hout).
  { unfold g4, g3, put_node.
    rewrite !lookup_set_at_apart; [done|by apply apart_app_l|done]. }
  { intros c [v Hv]%Hlisted. exists v. split; [done|].
    change (t ++ [nm; c]) with (t ++ [nm] ++ [c]).
    by rewrite app_assoc, lookup_path_snoc, Hnm4. }
  change (with_fs g4 w') with w' in Hrun. rewrite Hrun.
  cbn [snd fs with_fs]. by rewrite Hout, Hout4.
Qed.

Hypothesis tempdir_outside : ¬ I `prefix_of` tempdir H.

(** The directory that [mkdtemp] makes is apart from the install
    directory. *)
Lemma fresh_tmpdir_apart (f : node) (n : string) (es D : gmap string node) :
  lookup_path (tempdir H) f = Some (Dir es) →
  es !! n = None →
  lookup_path I f = Some (Dir D) →
  apart (tempdir H ++ [n]) I.
Proof.
  intros HT Hn HI.
  assert (Hfree : lookup_path (tempdir H ++ [n]) f = None).
  { by rewrite lookup_path_snoc, HT. }
  assert (Hnot : ¬ (tempdir H ++ [n]) `prefix_of` I).
  { intros [k Hk]. rewrite Hk, lookup_path_app, Hfree in HI. done. }
  split; [done|].
  intros [Hpre | Heq]%prefix_snoc_inv; [done|].
  apply Hnot. by rewrite Heq.
Qed.

Lemma install_files_fs (w : world) :
  distribution H = None ∨ entries_not_links H →
  fs (install_files H w).2 = installed H (fs w).
Proof.
  intros Hmoves. unfold install_files, installed. rewrite bind_run.
  unfold mkdir_parents. rewrite install_dir_parts. cbn [resolve].
  destruct (makedirs I (fs w)) as [f1|] eqn:Hmk; [|done].
  destruct (makedirs_lookup _ _ _ Hmk) as [D HI].
  rewrite bind_run, print_run. cbn [fs with_fs stdout events].
  match goal with |- context [with_TemporaryDirectory _ _ ?w1] => set (w' := w1) end.
  unfold with_TemporaryDirectory. rewrite bind_run.
  unfold mkdtemp, free_name. cbn [fs w'].
  destruct (lookup_path (tempdir H) f1) as [[|es]|] eqn:HT; try done.
  destruct (List.find _ (tempnames H)) as [n|] eqn:Hfind; [|done].
  apply find_some in Hfind as [_ Hn].
  destruct (es !! n) eqn:Hfree; [done|].
  pose proof (fresh_tmpdir_apart f1 n es D HT Hfree HI) as Hapart.
  set (t := tempdir H ++ [n]) in *.
  unfold finally.
  match goal with |- context [fetch_and_move _ _ _ ?w2] => set (w'' := w2) end.
  pose proof (fetch_and_move_outside t w'' D Hapart) as Hblock.
  assert (Hfs : fs w'' = put_node t (Dir ∅) f1) by reflexivity.
  rewrite Hfs in Hblock. clear Hfs.
  destruct (fetch_and_move H url (Abs t) w'') as [r w3].
  cbn [snd fs cleanup with_fs resolve] in *.
  assert (Hback : remove_node t (put_node t (Dir ∅) f1) = f1).
  { unfold remove_node, put_node. rewrite <- (app_nil_r t) at 2.
    rewrite set_at_absorb by apply snoc_not_nil.
    apply set_at_None_absent. unfold t. by rewrite lookup_path_snoc, HT. }
  rewrite Hback in Hblock. apply Hblock.
  - unfold put_node, t. by rewrite lookup_set_at_self, HT.
  - unfold put_node. by rewrite lookup_set_at_apart.
  - done.
Qed.

Lemma install_nodejs_fs (w : world) :
  distribution H = None ∨ entries_not_links H →
  fs (install_nodejs H w).2 = installed H (fs w).
Proof.
  intros Hmoves.
  rewrite <- install_files_fs by done. unfold install_nodejs. rewrite bind_run.
  destruct (install_files H w) as [[[]|e] w1]; [|done].
  apply verify_installation_fs.
Qed.

(** *** Installing again *)

Lemma kind_set_at (p q : list string) (o : option node) (f : node) :
  ¬ p `prefix_of` q → kind (lookup_path q (set_at p o f)) = kind (lookup_path q f).
Proof.
  revert q f. induction p as [|c p IH]; intros q f Hnot.
  - destruct Hnot. apply prefix_nil.
  - rewrite set_at_cons. destruct f as [|es]; [done|].
    destruct q as [|d q]; [done|].
    cbn [on_entries lookup_path].
    destruct (decide (c = d)) as [<-|Hne].
    + rewrite lookup_partial_alter_eq.
      assert (Hnot' : ¬ p `prefix_of` q) by (intros ?; by apply Hnot, prefix_cons).
      destruct p as [|c' p]. { destruct Hnot'. apply prefix_nil. }
      destruct (es !! c) as [m|]; simpl; [by apply IH | done].
    + by rewrite lookup_partial_alter_ne.
Qed.

Lemma free_name_set_at (c : string) (o : option node) (f : node) :
  free_name H (set_at (I ++ [c]) o f) = free_name H f.
Proof.
  assert (HnotT : ¬ (I ++ [c]) `prefix_of` tempdir H).
  { intros [k Hk]. apply tempdir_outside. exists ([c] ++ k). by rewrite app_assoc. }
  assert (HnotTn : ∀ n, ¬ (I ++ [c]) `prefix_of` tempdir H ++ [n]).
  { intros n [Hpre | Heq]%prefix_snoc_inv; [done|].
    apply app_inj_tail in Heq as [Heq _]. apply tempdir_outside. by rewrite Heq. }
  unfold free_name.
  pose proof (kind_set_at _ _ o f HnotT) as HkT.
  destruct (lookup_path (tempdir H) (set_at (I ++ [c]) o f)) as [[|es']|] eqn:HT';
    destruct (lookup_path (tempdir H) f) as [[|es]|] eqn:HT; try done.
  apply find_pointwise. intros n.
  pose proof (kind_set_at _ _ o f (HnotTn n)) as Hkn.
  rewrite !lookup_path_snoc, HT, HT' in Hkn.
  by destruct (es' !! n), (es !! n).
Qed.

(** The entries [cs] of [dist] set in the install directory, one by one. *)
Lemma free_name_set_all (dist : gmap string node) (cs : list string) (f : node) :
  free_name H (foldl (fun g c => set_at (I ++ [c]) (dist !! c) g) f cs)
    = free_name H f.
Proof.
  revert f. induction cs as [|c cs IH]; intros f; [done|].
  cbn [foldl]. by rewrite IH, free_name_set_at.
Qed.

Lemma install_dir_kept (dist : gmap string node) (cs : list string) (f : node)
    (D : gmap string node) :
  lookup_path I f = Some (Dir D) →
  ∃ D', lookup_path I (foldl (fun g c => set_at (I ++ [c]) (dist !! c) g) f cs)
          = Some (Dir D').
Proof.
  revert f D. induction cs as [|c cs IH]; intros f D HI; [by exists D|].
  cbn [foldl]. eapply IH. by rewrite lookup_set_at_parent, HI.
Qed.

Lemma set_all_comm (dist : gmap string node) (cs : list string) (c : string)
    (o : option node) (f : node) :
  c ∉ cs →
  set_at (I ++ [c]) o (foldl (fun g c => set_at (I ++ [c]) (dist !! c) g) f cs)
    = foldl (fun g c => set_at (I ++ [c]) (dist !! c) g) (set_at (I ++ [c]) o f) cs.
Proof.
  revert f. induction cs as [|c' cs IH]; intros f Hc; [done|].
  apply not_elem_of_cons in Hc as [Hne Hc].
  cbn [foldl]. rewrite IH by done. f_equal.
  by apply set_at_comm, apart_siblings.
Qed.

Lemma set_all_idempotent (dist : gmap string node) (cs : list string) :
  NoDup cs →
  ∀ f, foldl (fun g c => set_at (I ++ [c]) (dist !! c) g)
         (foldl (fun g c => set_at (I ++ [c]) (dist !! c) g) f cs) cs
       = foldl (fun g c => set_at (I ++ [c]) (dist !! c) g) f cs.
Proof.
  induction 1 as [|c cs Hc Hnodup IH]; intros f; [done|].
  cbn [foldl]. rewrite set_all_comm by done.
  rewrite <- (app_nil_r (I ++ [c])) at 2.
  rewrite set_at_absorb by apply snoc_not_nil.
  apply IH.
Qed.

(** Installing into what an installation left changes nothing. *)
Lemma installed_idempotent (f : node) :
  installed H (installed H f) = installed H f.
Proof.
  destruct (makedirs I f) as [f1|] eqn:Hmk.
  2: { unfold installed. by rewrite !Hmk. }
  destruct (makedirs_lookup _ _ _ Hmk) as [D HI].
  assert (Hf : installed H f =
                 match free_name H f1, distribution H with
                 | Some _, Some dist => move_in H dist f1
                 | _, _ => f1
                 end).
  { unfold installed. by rewrite Hmk. }
  rewrite Hf. clear Hf.
  destruct (free_name H f1) as [n|] eqn:Hfree.
  2: { unfold installed. by rewrite (makedirs_existing _ _ _ HI), Hfree. }
  destruct (distribution H) as [dist|] eqn:Hdist.
  2: { unfold installed. by rewrite (makedirs_existing _ _ _ HI), Hfree, Hdist. }
  destruct (install_dir_kept dist (listdir H dist) f1 D HI) as [D' HI'].
  unfold installed, move_in.
  rewrite (makedirs_existing _ _ _ HI'), free_name_set_all, Hfree, Hdist.
  apply set_all_idempotent, listing.
Qed.

(** What an installation leaves at a name in the install directory: the
    entry of the distribution, or what was there when the distribution has
    no entry of that name. *)
Lemma lookup_set_all (dist : gmap string node) (cs : list string) (c : string)
    (f : node) (D : gmap string node) :
  lookup_path I f = Some (Dir D) →
  lookup_path (I ++ [c]) (foldl (fun g c => set_at (I ++ [c]) (dist !! c) g) f cs)
    = if bool_decide (c ∈ cs) then dist !! c else lookup_path (I ++ [c]) f.
Proof.
  intros HI. induction cs as [|c' cs IH] using rev_ind.
  - by rewrite bool_decide_eq_false_2 by apply not_elem_of_nil.
  - rewrite foldl_app. cbn [foldl].
    destruct (install_dir_kept dist cs f D HI) as [D' HI'].
    destruct (decide (c = c')) as [<-|Hne].
    + rewrite lookup_set_at_self, HI'.
      by rewrite bool_decide_eq_true_2 by (apply elem_of_app; right; by left).
    + rewrite lookup_set_at_apart by (apply apart_siblings; congruence).
      rewrite IH.
      assert (bool_decide (c ∈ cs ++ [c']) = bool_decide (c ∈ cs)) as ->; [|done].
      apply bool_decide_ext. rewrite elem_of_app, list_elem_of_singleton. tauto.
Qed.

Lemma installed_replaces (f f1 : node) (dist : gmap string node) (c : string) :
  makedirs I f = Some f1 →
  is_Some (free_name H f1) →
  distribution H = Some dist →
  lookup_path (I ++ [c]) (installed H f) =
    match dist !! c with
    | Some v => Some v
    | None => lookup_path (I ++ [c]) f1
    end.
Proof.
  intros Hmk [n Hfree] Hdist. unfold installed, move_in. rewrite Hmk, Hfree, Hdist.
  destruct (makedirs_lookup _ _ _ Hmk) as [D HI].
  rewrite (lookup_set_all _ _ _ _ D HI).
  destruct (listing dist) as [_ Hlisted].
  destruct (dist !! c) as [v|] eqn:Hc.
  - rewrite bool_decide_eq_true_2; [done|]. apply Hlisted. by rewrite Hc.
  - rewrite bool_decide_eq_false_2; [done|]. rewrite Hlisted, Hc. by intros [? ?].
Qed.

End Install.

(** The order of a finite map lists a directory faithfully. *)
Lemma in_order_faithful (H : host) :
  listdir H = Demo.in_order → listing_faithful H.
Proof.
  intros Hlist es. rewrite Hlist. unfold Demo.in_order. split.
  - apply NoDup_fst_map_to_list.
  - intros k. rewrite list_elem_of_fmap. split.
    + intros ([k' v] & -> & Hkv%elem_of_map_to_list). by exists v.
    + intros [v Hv]. exists (k, v). split; [done | by apply elem_of_map_to_list].
Qed.

(** The demonstration hosts of [Demo.linux_with] decode confined archives. *)
Lemma linux_with_confined (served : option string)
    (decoded : option (gmap string node)) :
  archives_confined (Demo.linux_with served decoded).
Proof.
  intros data tar [Hxz | Hgz]; [|discriminate Hgz].
  unfold Demo.linux_with, Demo.linux_tar in Hxz. cbn [untar_xz] in Hxz.
  destruct decoded as [es|]; [|discriminate Hxz].
  injection Hxz as <-. reflexivity.
Qed.

Lemma linux_with_not_links (served : option string)
    (decoded : option (gmap string node)) :
  entries_not_links (Demo.linux_with served decoded).
Proof. intros c f. reflexivity. Qed.




(** Where an entry of the install directory is a symbolic link to a
    directory the move stops: [shutil.rmtree] refuses the link, the
    installation raises before anything is moved in, and what the link leads
    to is what the install directory shows afterwards. *)
Lemma linked_entry_stops_the_move :
  (install_nodejs Demo.linked_host (Demo.world_of Demo.old_install)).1
    = Raised (OSError "Cannot call rmtree on a symbolic link") ∧
  fs (install_nodejs Demo.linked_host (Demo.world_of Demo.old_install)).2
    = Demo.old_install.
Proof. split; vm_compute; reflexivity. Qed.

(** * Further properties *)

(** ** The candidate loop of [find_node] *)

Lemma find_node_in_first (H : host) (f : node) (paths : list path) (p : path) :
  find_node_in H f paths = Some p ↔
    ∃ before base after,
      paths = before ++ base :: after ∧
      p = base // runtime_name H ∧
      path_exists H f p = true ∧
      Forall (fun b => path_exists H f (b // runtime_name H) = false) before.
Proof.
  assert (Hname : ∀ b, (if on_windows H then b // "node.exe" else b // "node")
                       = b // runtime_name H).
  { intros b. unfold runtime_name. by destruct (on_windows H). }
  induction paths as [|b rest IH]; cbn [find_node_in].
  - split; [done|]. intros (before & base & after & Heq & _). by destruct before.
  - rewrite Hname. destruct (path_exists H f (b // runtime_name H)) eqn:Hb.
    + split.
      * intros [= <-]. exists [], b, rest. by repeat split.
      * intros (before & base & after & Heq & -> & _ & Hnone).
        destruct before as [|b' before]; simplify_eq/=; [done|].
        apply Forall_cons in Hnone as [Hb' _]. congruence.
    + rewrite IH. split.
      * intros (before & base & after & -> & -> & Hp & Hnone).
        exists (b :: before), base, after. repeat split; [done|]. by constructor.
      * intros (before & base & after & Heq & -> & Hp & Hnone).
        destruct before as [|b' before]; simplify_eq/=; [congruence|].
        apply Forall_cons in Hnone as [_ Hnone]. by exists before, base, after.
Qed.

(** X1.  When the search path has no runtime, [find_node] returns the
    runtime's file name in the first directory of [get_node_paths], in the
    order of that list, that holds it: a later directory is returned only
    when no earlier one has the file. *)
Theorem find_node_first_candidate (H : host) (f : node) (p : path) :
  which H (runtime_name H) f = None →
  (find_node H f = Some p ↔
     ∃ before base after,
       get_node_paths H = before ++ base :: after ∧
       p = base // runtime_name H ∧
       path_exists H f p = true ∧
       Forall (fun b => path_exists H f (b // runtime_name H) = false) before).
Proof.
  intros Hwhich. unfold find_node.
  assert (Hcmd : (if on_windows H then "node.exe" else "node") = runtime_name H).
  { unfold runtime_name. by destruct (on_windows H). }
  rewrite Hcmd, Hwhich. apply find_node_in_first.
Qed.

Lemma find_node_first_candidate_witness :
  find_node Demo.linux_host Demo.node_in_local = Some (Abs ["usr"; "local"; "bin"; "node"]).
Proof.
  apply (find_node_first_candidate Demo.linux_host Demo.node_in_local); [by vm_compute|].
  exists [Abs ["home"; "u"; ".claude-ssh-mcp"; "node"]], (Abs ["usr"; "local"; "bin"]),
    [Abs ["usr"; "bin"]; Abs ["home"; "u"; ".local"; "bin"];
     Abs ["home"; "u"; ".nvm"; "versions"; "node"; "v20.11.0"; "bin"]].
  repeat split; [by vm_compute.. |].
  constructor; [by vm_compute | constructor].
Defined.

Lemma find_node_found (H : host) (f : node) (p : path) :
  find_node H f = Some p →
  which H (runtime_name H) f = Some p ∨ path_exists H f p = true.
Proof.
  unfold find_node.
  assert (Hcmd : (if on_windows H then "node.exe" else "node") = runtime_name H).
  { unfold runtime_name. by destruct (on_windows H). }
  rewrite Hcmd. destruct (which H (runtime_name H) f) as [q|]; [by left|].
  intros (before & base & after & _ & _ & Hp & _)%find_node_in_first. by right.
Qed.

(** X2.  A path that [find_node] or [find_npx] returns is what
    [shutil.which] returned for that file name, or it exists in the file
    system that was searched. *)
Theorem located_paths_exist (H : host) (f : node) (p : path) :
  (find_node H f = Some p →
   which H (runtime_name H) f = Some p ∨ path_exists H f p = true) ∧
  (find_npx H f = Some p →
   which H (launcher_name H) f = Some p ∨ path_exists H f p = true).
Proof.
  split; [apply find_node_found|].
  unfold find_npx.
  assert (Hcmd : (if on_windows H then "npx.cmd" else "npx") = launcher_name H).
  { unfold launcher_name. by destruct (on_windows H). }
  rewrite Hcmd. destruct (which H (launcher_name H) f) as [q|]; [by left|].
  destruct (find_node H f) as [node_path|]; [|done].
  destruct (on_windows H);
    (destruct (path_exists H f _) eqn:Hp; [|done]); intros [= <-]; by right.
Qed.

(** ** Where the installer puts the runtime and where the locator looks *)

Lemma node_exe_unix (H : host) :
  on_windows H = false →
  node_exe H = Abs ((((home H ++ [".claude-ssh-mcp"]) ++ ["node"]) ++ ["bin"]) ++ ["node"]).
Proof. intros Hunix. unfold node_exe. by rewrite Hunix. Qed.

Lemma candidate_is_not_node_exe (H : host) (base : path) :
  on_windows H = false →
  base ∈ get_node_paths H →
  base // "node" ≠ node_exe H.
Proof.
  intros Hunix Hin. rewrite (node_exe_unix H Hunix).
  unfold get_node_paths in Hin. rewrite Hunix in Hin. cbn [join] in Hin.
  repeat (apply elem_of_cons in Hin as [-> | Hin]); [..| by apply elem_of_nil in Hin];
    cbn [join]; intros [= Heq].
  - apply app_inj_tail in Heq as [Heq _].
    apply (f_equal length) in Heq. rewrite !length_app in Heq. simpl in Heq. lia.
  - destruct (home H); [done|].
    apply (f_equal length) in Heq. rewrite !length_app in Heq. simpl in Heq. lia.
  - apply (f_equal length) in Heq. rewrite !length_app in Heq. simpl in Heq. lia.
  - apply (f_equal length) in Heq. rewrite !length_app in Heq. simpl in Heq. lia.
  - apply (f_equal length) in Heq. rewrite !length_app in Heq. simpl in Heq. lia.
Qed.

(** X3.  Off Windows the candidate loop of [find_node] never returns the
    path that [install_nodejs] verifies and returns: the loop probes
    [<install dir>/node], the installer leaves the executable at
    [<install dir>/bin/node].  A runtime that this program installed is found
    again only through the search path. *)
Theorem find_node_misses_node_exe (H : host) (f : node) :
  on_windows H = false →
  which H "node" f = None →
  find_node H f ≠ Some (node_exe H).
Proof.
  intros Hunix Hwhich Hfound.
  assert (Hname : runtime_name H = "node") by (unfold runtime_name; by rewrite Hunix).
  unfold find_node in Hfound. rewrite Hunix, Hwhich in Hfound.
  apply find_node_in_first in Hfound as (before & base & after & Hpaths & Hp & _).
  rewrite Hname in Hp. symmetry in Hp. revert Hp.
  apply candidate_is_not_node_exe; [done|].
  rewrite Hpaths. apply elem_of_app. right. by left.
Qed.

Lemma find_node_misses_node_exe_witness :
  path_exists Demo.linux_host
    (fs (install_nodejs Demo.linux_host (Demo.world_of Demo.bare)).2)
    (node_exe Demo.linux_host) = true ∧
  find_node Demo.linux_host (fs (install_nodejs Demo.linux_host (Demo.world_of Demo.bare)).2)
    ≠ Some (node_exe Demo.linux_host).
Proof.
  split; [by vm_compute|].
  apply find_node_misses_node_exe; by vm_compute.
Defined.

(** On a bare Linux machine [main] therefore installs twice: once for
    [ensure_nodejs], once more when [run_npx] does not find the launcher. *)
Lemma main_installs_twice_on_bare_linux :
  events (main Demo.linux_host (Demo.world_of Demo.bare)).2 =
    [ Download "https://nodejs.org/dist/v20.11.0/node-v20.11.0-linux-x64.tar.xz";
      Download "https://nodejs.org/dist/v20.11.0/node-v20.11.0-linux-x64.tar.xz";
      Spawn [ArgPath (Abs ["home"; "u"; ".claude-ssh-mcp"; "node"; "bin"; "npx"]);
             ArgStr "-y"; ArgStr "claude-ssh-mcp"] ].
Proof. by vm_compute. Qed.

(** ** What a successful installation returns *)

Lemma install_nodejs_ok (H : host) (w w1 : world) (p : path) :
  install_nodejs H w = (Ok p, w1) →
  p = node_exe H ∧ path_exists H (fs w1) p = true.
Proof.
  unfold install_nodejs. rewrite bind_run.
  destruct (install_files H w) as [[[]|e] w0]; [|done].
  rewrite verify_installation_run.
  destruct (path_exists H (fs w0) (node_exe H)) eqn:Hexists; [|done].
  intros [= <- <-]. by cbn [fs].
Qed.

(** X4.  When [install_nodejs] returns a path, it is
    [<home>/.claude-ssh-mcp/node/node.exe] on Windows and
    [<home>/.claude-ssh-mcp/node/bin/node] elsewhere, it exists in the file
    system the call leaves, and the last line printed is
    "Node.js installed to" followed by [<home>/.claude-ssh-mcp/node]. *)
Theorem install_nodejs_returns_existing (H : host) (w w1 : world) (p : path) :
  install_nodejs H w = (Ok p, w1) →
  p = Abs (home H ++ if on_windows H
                     then [".claude-ssh-mcp"; "node"; "node.exe"]
                     else [".claude-ssh-mcp"; "node"; "bin"; "node"]) ∧
  is_Some (lookup_path (parts_of p) (fs w1)) ∧
  List.last (stdout w1) "" =
    "Node.js installed to " +:+ str H (Abs (home H ++ [".claude-ssh-mcp"; "node"])).
Proof.
  intros Hok. destruct (install_nodejs_ok H w w1 p Hok) as [-> Hexists].
  assert (Hdir : install_dir H = Abs (home H ++ [".claude-ssh-mcp"; "node"])).
  { unfold install_dir. cbn [join]. by rewrite <- app_assoc. }
  assert (Hexe : node_exe H =
            Abs (home H ++ if on_windows H
                           then [".claude-ssh-mcp"; "node"; "node.exe"]
                           else [".claude-ssh-mcp"; "node"; "bin"; "node"])).
  { unfold node_exe. rewrite Hdir.
    destruct (on_windows H); cbn [join]; by rewrite <- ?app_assoc. }
  split; [exact Hexe|]. split.
  - unfold path_exists in Hexists. rewrite Hexe in Hexists |- *.
    cbn [resolve parts_of] in *.
    by destruct (lookup_path _ (fs w1)).
  - rewrite <- Hdir.
    unfold install_nodejs in Hok. rewrite bind_run in Hok.
    destruct (install_files H w) as [[[]|e] w0]; [|done].
    rewrite verify_installation_run in Hok.
    destruct (path_exists H (fs w0) (node_exe H)); [|done].
    injection Hok as <-. cbn [stdout]. apply last_last.
Qed.

Lemma install_nodejs_returns_existing_witness :
  (install_nodejs Demo.linux_host (Demo.world_of Demo.bare)).1
    = Ok (Abs ["home"; "u"; ".claude-ssh-mcp"; "node"; "bin"; "node"]) ∧
  lookup_path ["home"; "u"; ".claude-ssh-mcp"; "node"; "bin"; "node"]
    (fs (install_nodejs Demo.linux_host (Demo.world_of Demo.bare)).2)
    = Some (File "ELF") ∧
  List.last (stdout (install_nodejs Demo.linux_host (Demo.world_of Demo.bare)).2) ""
    = "Node.js installed to /home/u/.claude-ssh-mcp/node".
Proof.
  destruct (install_nodejs_returns_existing Demo.linux_host (Demo.world_of Demo.bare)
              (install_nodejs Demo.linux_host (Demo.world_of Demo.bare)).2
              (Abs ["home"; "u"; ".claude-ssh-mcp"; "node"; "bin"; "node"]))
    as (_ & _ & Hlast).
  - vm_compute. reflexivity.
  - split; [vm_compute; reflexivity|]. split; [vm_compute; reflexivity|].
    rewrite Hlast. vm_compute. reflexivity.
Defined.

(** X5.  A path that [ensure_nodejs] returns is what [shutil.which] gave
    for the runtime's file name, or it exists in the file system the call
    leaves: found in a candidate directory, or just installed. *)
Theorem ensure_nodejs_returns_resolved (H : host) (w w1 : world) (p : path) :
  ensure_nodejs H w = (Ok p, w1) →
  which H (runtime_name H) (fs w) = Some p ∨ path_exists H (fs w1) p = true.
Proof.
  unfold ensure_nodejs. rewrite bind_run, gets_run.
  destruct (find_node H (fs w)) as [q|] eqn:Hfound.
  - intros [= <- <-]. by apply find_node_found.
  - rewrite bind_run, print_run. intros Hok.
    right. by apply (install_nodejs_ok H _ w1 p Hok).
Qed.

Lemma ensure_nodejs_returns_resolved_witness :
  path_exists Demo.linux_host
    (fs (ensure_nodejs Demo.linux_host (Demo.world_of Demo.bare)).2)
    (Abs ["home"; "u"; ".claude-ssh-mcp"; "node"; "bin"; "node"]) = true.
Proof.
  destruct (ensure_nodejs_returns_resolved Demo.linux_host (Demo.world_of Demo.bare)
              (ensure_nodejs Demo.linux_host (Demo.world_of Demo.bare)).2
              (Abs ["home"; "u"; ".claude-ssh-mcp"; "node"; "bin"; "node"]))
    as [Hwhich | Hexists].
  - vm_compute. reflexivity.
  - vm_compute in Hwhich. discriminate Hwhich.
  - exact Hexists.
Defined.

(** X6.  On Windows what [install_nodejs] installed is found again: when
    the search path has no [node.exe], a following [ensure_nodejs] returns
    the installed path and leaves the world as it is, without a second
    download. *)
Theorem ensure_after_install_windows (H : host) (w w1 : world) (p : path) :
  on_windows H = true →
  install_nodejs H w = (Ok p, w1) →
  which H "node.exe" (fs w1) = None →
  ensure_nodejs H w1 = (Ok p, w1).
Proof.
  intros Hwin Hok Hwhich.
  destruct (install_nodejs_ok H w w1 p Hok) as [-> Hexists].
  assert (Hfound : find_node H (fs w1) = Some (node_exe H)).
  { unfold find_node. rewrite Hwin, Hwhich.
    unfold get_node_paths. rewrite Hwin. cbn [find_node_in]. rewrite Hwin.
    unfold node_exe, install_dir in Hexists. rewrite Hwin in Hexists.
    rewrite Hexists. unfold node_exe, install_dir. by rewrite Hwin. }
  unfold ensure_nodejs. by rewrite bind_run, gets_run, Hfound.
Qed.

Lemma ensure_after_install_windows_witness :
  let w1 := (install_nodejs Demo.windows_host (Demo.world_of Demo.bare_windows)).2 in
  ensure_nodejs Demo.windows_host w1 =
    (Ok (Abs ["C:"; "Users"; "u"; ".claude-ssh-mcp"; "node"; "node.exe"]), w1).
Proof.
  cbv zeta.
  apply (ensure_after_install_windows Demo.windows_host
           (Demo.world_of Demo.bare_windows)).
  - vm_compute. reflexivity.
  - vm_compute. reflexivity.
  - vm_compute. reflexivity.
Defined.

(** ** Network requests and processes *)

Lemma events_bind_quiet {A B} (m : M A) (k : A → M B) :
  (∀ w, events (m w).2 = events w) →
  (∀ a w, events (k a w).2 = events w) →
  ∀ w, events ((m ≫= k) w).2 = events w.
Proof.
  intros Hm Hk w. rewrite bind_run. specialize (Hm w).
  destruct (m w) as [[a|e] w']; cbn [snd] in *; [|done].
  by rewrite Hk.
Qed.

Lemma events_for_each_quiet {A} (items : list A) (body : A → M unit) :
  (∀ item w, events (body item w).2 = events w) →
  ∀ w, events (for_each items body w).2 = events w.
Proof.
  intros Hbody. induction items as [|item rest IH]; intros w; [done|].
  cbn [for_each]. by apply events_bind_quiet.
Qed.

Lemma events_gets {A} (g : node → A) (w : world) : events (gets g w).2 = events w.
Proof. reflexivity. Qed.

Lemma events_rmtree (H : host) (p : path) (w : world) :
  events (rmtree H p w).2 = events w.
Proof.
  unfold rmtree. by destruct (islink H _ (fs w)), (path_is_dir H (fs w) p).
Qed.

Lemma events_unlink (H : host) (p : path) (w : world) :
  events (unlink H p w).2 = events w.
Proof. unfold unlink. by destruct (_ && _). Qed.

Lemma events_shutil_move (H : host) (src dst : path) (w : world) :
  events (shutil_move H src dst w).2 = events w.
Proof.
  unfold shutil_move. destruct (lookup_path _ (fs w)) as [n|]; [|done].
  by repeat (match goal with |- context [if ?b then _ else _] => destruct b end).
Qed.

Lemma events_iterdir (H : host) (p : path) (w : world) :
  events (iterdir H p w).2 = events w.
Proof. unfold iterdir. by destruct (lookup_path _ (fs w)) as [[|es]|]. Qed.

Lemma events_extractall (H : host) decode (archive dest : path) (w : world) :
  events (extractall H decode archive dest w).2 = events w.
Proof.
  unfold extractall.
  destruct (lookup_path (resolve H archive) (fs w)) as [[data|]|]; try done.
  destruct (decode data); [|done].
  by destruct (lookup_path (resolve H dest) (fs w)) as [[|es]|].
Qed.

Lemma events_write_file (p : list string) (data : string) (w : world) :
  events (write_file p data w).2 = events w.
Proof.
  unfold write_file. destruct (makedirs _ (fs w)) as [f|]; [|done].
  by destruct (lookup_path p f) as [[|es]|].
Qed.

Lemma events_tar_extractall (H : host) decode (archive dest : path) (w : world) :
  events (tar_extractall H decode archive dest w).2 = events w.
Proof.
  unfold tar_extractall.
  destruct (lookup_path (resolve H archive) (fs w)) as [[data|]|]; try done.
  destruct (decode data) as [tar|]; [|done].
  destruct (lookup_path (resolve H dest) (fs w)) as [[|es]|]; try done.
  rewrite events_for_each_quiet; [done|].
  intros m w'. apply events_write_file.
Qed.

Lemma events_extract (H : host) (url : string) (archive_path tmpdir : path)
    (w : world) :
  events (extract H url archive_path tmpdir w).2 = events w.
Proof.
  unfold extract.
  destruct (Str.endswith url ".zip"); [apply events_extractall|].
  destruct (Str.endswith url ".tar.xz"); apply events_tar_extractall.
Qed.

Lemma events_replace_entry (H : host) (item : path) (w : world) :
  events (replace_entry H item w).2 = events w.
Proof.
  unfold replace_entry. apply events_bind_quiet; [apply events_gets|].
  intros dest_exists w'. apply events_bind_quiet.
  - intros w''. destruct dest_exists; [|done].
    apply events_bind_quiet; [apply events_gets|].
    intros [] ?; [apply events_rmtree | apply events_unlink].
  - intros _ w''. apply events_shutil_move.
Qed.

Lemma events_move_to_install (H : host) (extracted : path) (w : world) :
  events (move_to_install H extracted w).2 = events w.
Proof.
  rewrite move_to_install_run. apply events_bind_quiet; [apply events_iterdir|].
  intros items w'. apply events_for_each_quiet, events_replace_entry.
Qed.

Lemma events_find_extracted_dir (H : host) (tmpdir : path) (w : world) :
  events (find_extracted_dir H tmpdir w).2 = events w.
Proof.
  unfold find_extracted_dir. apply events_bind_quiet; [apply events_iterdir|].
  intros items w'. apply events_bind_quiet; [apply events_gets|].
  by intros [extracted|] w''.
Qed.

Lemma events_verify_installation (H : host) (w : world) :
  events (verify_installation H w).2 = events w.
Proof. rewrite verify_installation_run. by destruct (path_exists _ _ _). Qed.

(** The body of the [with] block sends one request, whatever happens next. *)
Lemma events_fetch_and_move (H : host) (url : string) (tmpdir : path) (w : world) :
  events (fetch_and_move H url tmpdir w).2 = events w ++ [Download url].
Proof.
  unfold fetch_and_move. rewrite bind_run, download_run, bind_run.
  unfold urlretrieve at 1.
  destruct (urlopen H url) as [body|]; [|done].
  destruct (_ && _); [|done].
  rewrite bind_run, print_run, mret_run. cbv beta iota.
  match goal with |- context [mbind _ _ ?w0] => set (w' := w0) end.
  assert (Hw' : events w' = events w ++ [Download url]) by reflexivity.
  rewrite <- Hw'. generalize w'. clear w' Hw'.
  apply events_bind_quiet.
  - intros w'. apply events_extract.
  - intros _ w'. apply events_bind_quiet; [apply events_find_extracted_dir|].
    intros extracted w''. apply events_move_to_install.
Qed.

Lemma events_install_nodejs (H : host) (w : world) :
  events (install_nodejs H w).2 =
    events w ++ match entered_tmpdir H w with
                | Some _ => [Download (get_node_download_url H)]
                | None => []
                end.
Proof.
  unfold install_nodejs, install_files, entered_tmpdir. rewrite !bind_run.
  unfold mkdir_parents.
  destruct (makedirs _ (fs w)) as [f1|]; [|by rewrite app_nil_r].
  rewrite !bind_run, print_run. cbv beta iota.
  match goal with |- context [mkdtemp H ?w0] => set (w' := w0) end.
  assert (Hw' : events w' = events w) by reflexivity.
  unfold with_TemporaryDirectory. rewrite bind_run.
  assert (Hmk : ∀ t w2, mkdtemp H w' = (Ok t, w2) → events w2 = events w').
  { unfold mkdtemp. intros t w2.
    destruct (lookup_path _ (fs w')) as [[|es]|]; try done.
    destruct (List.find _ _); [|done]. by intros [= _ <-]. }
  assert (Hfail : ∀ e w2, mkdtemp H w' = (Raised e, w2) → events w2 = events w').
  { unfold mkdtemp. intros e w2.
    destruct (lookup_path _ (fs w')) as [[|es]|]; try (by intros [= _ <-]).
    destruct (List.find _ _); [done|]. by intros [= _ <-]. }
  destruct (mkdtemp H w') as [[t|e] w2].
  - specialize (Hmk t w2 eq_refl). unfold finally.
    pose proof (events_fetch_and_move H (get_node_download_url H) t w2) as Hblock.
    destruct (fetch_and_move H _ t w2) as [[[]|e] w3]; cbn [snd] in *.
    + rewrite events_verify_installation. cbn [cleanup events with_fs].
      by rewrite Hblock, Hmk, Hw'.
    + cbn [cleanup events with_fs]. by rewrite Hblock, Hmk, Hw'.
  - cbn [snd]. by rewrite (Hfail e w2 eq_refl), Hw', app_nil_r.
Qed.

(** X7.  [install_nodejs] sends exactly one request, to the URL of
    [get_node_download_url], when its [with] block is entered, and none when
    the install directory or the temporary directory cannot be made; it
    starts no process and logs nothing else, whether it returns or raises.
    [ensure_nodejs] sends that one request when the runtime is not found,
    and none when it is. *)
Theorem install_nodejs_requests (H : host) (w : world) :
  events (install_nodejs H w).2 =
    events w ++ match entered_tmpdir H w with
                | Some _ => [Download (get_node_download_url H)]
                | None => []
                end ∧
  events (ensure_nodejs H w).2 =
    events w ++ match find_node H (fs w), entered_tmpdir H w with
                | None, Some _ => [Download (get_node_download_url H)]
                | _, _ => []
                end.
Proof.
  split; [apply events_install_nodejs|].
  unfold ensure_nodejs. rewrite bind_run, gets_run.
  destruct (find_node H (fs w)) as [p|]; [by rewrite app_nil_r|].
  rewrite bind_run, print_run, events_install_nodejs.
  rewrite <- (entered_tmpdir_print H w "Node.js not found. Installing...").
  by destruct (entered_tmpdir H _).
Qed.

(** ** What an installation leaves alone *)

Lemma lookup_makedirs_apart (p q : list string) (f f1 : node) :
  apart p q → makedirs p f = Some f1 → lookup_path q f1 = lookup_path q f.
Proof.
  revert q f f1. induction p as [|c p IH]; intros q f f1 Hapart Hmk.
  - destruct Hapart as [[] _]. apply prefix_nil.
  - destruct q as [|d q]. { destruct Hapart as [_ []]. apply prefix_nil. }
    destruct f as [|es]; [done|]. cbn [makedirs] in Hmk.
    destruct (makedirs p (default (Dir ∅) (es !! c))) as [sub|] eqn:Hsub; [|done].
    simpl in Hmk. simplify_eq. cbn [lookup_path].
    destruct (decide (c = d)) as [<-|Hne].
    + rewrite lookup_insert_eq. cbn [mbind option_bind].
      apply apart_cons_inv in Hapart.
      rewrite (IH _ _ _ Hapart Hsub).
      destruct (es !! c) as [m|]; [done|]. cbn [default mbind option_bind].
      destruct q as [|d' q]. { destruct Hapart as [_ []]. apply prefix_nil. }
      done.
    + by rewrite lookup_insert_ne.
Qed.

Lemma lookup_move_in_apart (H : host) (dist : gmap string node) (q : list string)
    (f : node) :
  apart (install_parts H) q →
  lookup_path q (move_in H dist f) = lookup_path q f.
Proof.
  intros Hapart. unfold move_in. generalize (listdir H dist). intros cs.
  revert f. induction cs as [|c cs IH]; intros f; [done|].
  cbn [foldl]. rewrite IH. by apply lookup_set_at_apart, apart_app_l.
Qed.

Lemma lookup_installed_apart (H : host) (q : list string) (f : node) :
  apart (install_parts H) q →
  lookup_path q (installed H f) = lookup_path q f.
Proof.
  intros Hapart. unfold installed.
  destruct (makedirs (install_parts H) f) as [f1|] eqn:Hmk; [|done].
  rewrite <- (lookup_makedirs_apart _ _ _ _ Hapart Hmk).
  destruct (free_name H f1), (distribution H); try done.
  by apply lookup_move_in_apart.
Qed.



(** Without that assumption on the archive the frame is lost: [tarfile]
    writes a member named [../outside.txt] beside the temporary directory,
    where it stays when the temporary directory is removed. *)
Lemma straying_member_is_written_outside :
  lookup_path ["tmp"; "outside.txt"] Demo.bare = None ∧
  lookup_path ["tmp"; "outside.txt"]
    (fs (install_nodejs Demo.straying_host (Demo.world_of Demo.bare)).2)
    = Some (File "out").
Proof. split; vm_compute; reflexivity. Qed.



(** The [with] block is left without an exception only if it was entered. *)
Lemma install_files_entered (H : host) (w w0 : world) (f1 : node) :
  install_files H w = (Ok tt, w0) →
  makedirs (install_parts H) (fs w) = Some f1 →
  is_Some (free_name H f1).
Proof.
  unfold install_files, mkdir_parents. rewrite bind_run, install_dir_parts.
  cbn [resolve]. intros Hok Hmk. rewrite Hmk in Hok.
  rewrite bind_run, print_run in Hok. cbv beta iota in Hok.
  unfold with_TemporaryDirectory in Hok. rewrite bind_run in Hok.
  unfold mkdtemp, free_name in *. cbn [fs with_fs] in Hok.
  destruct (lookup_path (tempdir H) f1) as [[|es]|]; try done.
  destruct (List.find _ (tempnames H)) as [n|]; [by eexists | done].
Qed.



(** ** The archive format follows the operating system *)

Lemma url_suffixes (H : host) :
  let url := get_node_download_url H in
  match Spec.os_of (Str.lower (system H)) with
  | Spec.windows => Str.endswith url ".zip" = true
  | Spec.darwin => Str.endswith url ".zip" = false ∧ Str.endswith url ".tar.xz" = false
  | Spec.linux => Str.endswith url ".zip" = false ∧ Str.endswith url ".tar.xz" = true
  end.
Proof.
  cbv zeta. unfold get_node_download_url, Spec.os_of.
  rewrite node_arch_arch_of.
  destruct (Str.lower (system H) =? "windows");
    [|destruct (Str.lower (system H) =? "darwin")];
    destruct (Spec.arch_of _); by vm_compute.
Qed.

(** X11.  The tests on the end of the URL in [install_nodejs] pick the file
    name and the extractor that belong to the operating system the URL was
    built for: [node.zip] and [zipfile] on Windows, [node.tar.gz] and the
    gzip [tarfile] on macOS, [node.tar.xz] and [lzma] with [tarfile]
    everywhere else, for every machine name. *)
Theorem archive_format_follows_os (H : host) (tmpdir archive_path : path) :
  let url := get_node_download_url H in
  let os := Spec.os_of (Str.lower (system H)) in
  download H url tmpdir =
    (urlretrieve H url (tmpdir // ("node." +:+ Spec.kind_text (Spec.kind_of os)));;
     print "Extracting...";;
     mret (tmpdir // ("node." +:+ Spec.kind_text (Spec.kind_of os)))) ∧
  extract H url archive_path tmpdir =
    match Spec.kind_of os with
    | Spec.zip => extractall H (unzip H) archive_path tmpdir
    | Spec.tar_gz => tar_extractall H (untar_gz H) archive_path tmpdir
    | Spec.tar_xz => tar_extractall H (untar_xz H) archive_path tmpdir
    end.
Proof.
  cbv zeta. pose proof (url_suffixes H) as Hsuffix. cbv zeta in Hsuffix.
  unfold download, extract.
  destruct (Spec.os_of (Str.lower (system H))).
  - by rewrite Hsuffix.
  - destruct Hsuffix as [-> ->]. done.
  - destruct Hsuffix as [-> ->]. done.
Qed.

(** ** Delegation *)

(** X12.  When [find_npx] finds the launcher, [run_npx] goes straight to
    the spawn: its outcome is that of [subprocess.call] on the launcher
    followed by the arguments in their order, from the world it was called
    in, with no request sent and nothing installed before. *)
Theorem run_npx_found_spawns (H : host) (args : list string) (w : world) (p : path) :
  find_npx H (fs w) = Some p →
  run_npx H args w = subprocess_call H (ArgPath p :: map ArgStr args) w.
Proof.
  intros Hfound. unfold run_npx.
  by rewrite bind_run, gets_run, Hfound, bind_run, mret_run.
Qed.

Lemma run_npx_found_spawns_witness :
  run_npx Demo.linux_host ["-y"; "claude-ssh-mcp"]
    (Demo.world_of Demo.node_npx_local)
  = subprocess_call Demo.linux_host
      [ArgPath (Abs ["usr"; "local"; "bin"; "npx"]); ArgStr "-y"; ArgStr "claude-ssh-mcp"]
      (Demo.world_of Demo.node_npx_local).
Proof.
  apply (run_npx_found_spawns Demo.linux_host ["-y"; "claude-ssh-mcp"]).
  vm_compute. reflexivity.
Defined.

Lemma events_ensure_nodejs_raised (H : host) (w w1 : world) (e : exn) :
  ensure_nodejs H w = (Raised e, w1) →
  events w1 =
    events w ++ match entered_tmpdir H w with
                | Some _ => [Download (get_node_download_url H)]
                | None => []
                end.
Proof.
  unfold ensure_nodejs. rewrite bind_run, gets_run.
  destruct (find_node H (fs w)); [done|].
  rewrite bind_run, print_run. intros Hraised.
  pose proof (events_install_nodejs H
                (World (fs w) (stdout w ++ ["Node.js not found. Installing..."]) (events w)))
    as Hevents.
  rewrite Hraised in Hevents. cbn [snd events] in Hevents.
  by rewrite <- (entered_tmpdir_print H w "Node.js not found. Installing...").
Qed.

(** X13.  When the launcher is not found and provisioning raises,
    [run_npx] raises the same exception and no child process is started: the
    log the call leaves is the one it began with, followed by the one
    download request if the installer got as far as its [with] block. *)
Theorem run_npx_provisioning_failure (H : host) (args : list string)
    (w w1 : world) (e : exn) :
  find_npx H (fs w) = None →
  ensure_nodejs H w = (Raised e, w1) →
  run_npx H args w = (Raised e, w1) ∧
  events w1 =
    events w ++ match entered_tmpdir H w with
                | Some _ => [Download (get_node_download_url H)]
                | None => []
                end.
Proof.
  intros Hnpx Hraised. split; [|by apply (events_ensure_nodejs_raised H w w1 e)].
  unfold run_npx. by rewrite bind_run, gets_run, Hnpx, !bind_run, Hraised.
Qed.

Lemma run_npx_provisioning_failure_witness :
  let w := Demo.world_of Demo.bare in
  let w1 := (ensure_nodejs Demo.offline_host w).2 in
  run_npx Demo.offline_host ["-y"; "claude-ssh-mcp"] w =
    (Raised (URLError "https://nodejs.org/dist/v20.11.0/node-v20.11.0-linux-x64.tar.xz"), w1) ∧
  events w1 =
    [Download "https://nodejs.org/dist/v20.11.0/node-v20.11.0-linux-x64.tar.xz"].
Proof.
  cbv zeta.
  destruct (run_npx_provisioning_failure Demo.offline_host ["-y"; "claude-ssh-mcp"]
              (Demo.world_of Demo.bare)
              (ensure_nodejs Demo.offline_host (Demo.world_of Demo.bare)).2
              (URLError "https://nodejs.org/dist/v20.11.0/node-v20.11.0-linux-x64.tar.xz"))
    as [Hrun Hevents].
  - vm_compute. reflexivity.
  - vm_compute. reflexivity.
  - split; [exact Hrun|]. rewrite Hevents. vm_compute. reflexivity.
Defined.

(** ** Environment variables that are not set *)

(** X14.  On Windows, when [LOCALAPPDATA] is not set the third candidate
    directory is the relative path [Programs\node]: if the search path and
    the two candidates before it have no [node.exe], [find_node] probes
    [Programs\node\node.exe] below the working directory and returns that
    relative path when the file is there. *)
Theorem find_node_unset_localappdata (H : host) (f : node) :
  on_windows H = true →
  environ H "LOCALAPPDATA" = None →
  which H "node.exe" f = None →
  path_exists H f (install_dir H // "node.exe") = false →
  path_exists H f
    (default (Abs ["C:"; "Program Files"]) (environ H "PROGRAMFILES")
       // "nodejs" // "node.exe") = false →
  find_node H f =
    match lookup_path (cwd H ++ ["Programs"; "node"; "node.exe"]) f with
    | Some _ => Some (Rel ["Programs"; "node"; "node.exe"])
    | None => None
    end.
Proof.
  intros Hwin Henv Hwhich Hfirst Hsecond.
  unfold find_node, get_node_paths. rewrite Hwin, Hwhich, Henv.
  cbn [find_node_in]. rewrite Hwin.
  unfold install_dir in Hfirst. rewrite Hfirst, Hsecond.
  cbn [default join]. unfold path_exists. cbn [resolve app].
  by destruct (lookup_path _ f).
Qed.

Lemma find_node_unset_localappdata_witness :
  find_node Demo.windows_host Demo.windows_cwd_node
    = Some (Rel ["Programs"; "node"; "node.exe"]).
Proof.
  rewrite (find_node_unset_localappdata Demo.windows_host Demo.windows_cwd_node).
  - vm_compute. reflexivity.
  - vm_compute. reflexivity.
  - vm_compute. reflexivity.
  - vm_compute. reflexivity.
  - vm_compute. reflexivity.
  - vm_compute. reflexivity.
Defined.
